(** * Spektral message-passing layers: EdgeConv and TAGConv

    A shallow embedding of
      - [spektral/layers/convolutional/edge_conv.py]  (class [EdgeConv])
      - [spektral/layers/convolutional/tag_conv.py]   (class [TAGConv])
    together with the parts of the host framework (Keras [Dense],
    [Sequential], [K.concatenate]) and of the [MessagePassing] base class
    that the two layers call.

    Tensors hold IEEE-754 numbers.  All layer code is written over an
    abstract scalar interface [Scalar]; the instance [binary32] gives the
    arithmetic of the default dtype (float32) through the Standard
    Library's executable [SpecFloat] operations. *)

From Stdlib Require Import ZArith Bool Lia.
From Stdlib Require Import Floats.SpecFloat.
From stdpp Require Import base option list strings gmap.

Set Default Proof Using "Type".

(** ** Scalars *)

(** The element type of a tensor together with the arithmetic the layers
    use on it.  [sdot u v] is the inner product of two vectors as the
    backend's matrix product computes it; the order in which it adds the
    products is the backend's and matters in floating point. *)
Class Scalar (R : Type) := {
  szero : R;
  sone : R;
  sadd : R -> R -> R;
  ssub : R -> R -> R;
  smul : R -> R -> R;
  sdiv : R -> R -> R;
  smax : R -> R -> R;
  ssqrt : R -> R;
  scount : nat -> R;
  sdot : list R -> list R -> R;
}.

Module Float.

(** The inner product as the matrix product accumulates it: starting from
    zero, the products are added one after the other in the order of the
    entries, each sum rounded in the format.  On [[1; 1e8; -1e8]] against
    ones it gives [(1 + 1e8) - 1e8 = 0] in binary32. *)
Definition dot_accumulate (prec emax : Z) (u v : list spec_float)
    : spec_float :=
  foldl (fun acc p => SFadd prec emax acc (SFmul prec emax (fst p) (snd p)))
        (S754_zero false) (zip u v).

(** IEEE-754 binary formats, by precision and maximal exponent. *)
Definition of_format (prec emax : Z) : Scalar spec_float := {|
  szero := S754_zero false;
  sone := SFone prec emax;
  sadd := SFadd prec emax;
  ssub := SFsub prec emax;
  smul := SFmul prec emax;
  sdiv := SFdiv prec emax;
  smax := fun a b =>
    match a, b with
    | S754_nan, _ | _, S754_nan => S754_nan
    | _, _ => if SFltb a b then b else a
    end;
  ssqrt := SFsqrt prec emax;
  scount := fun n => binary_normalize prec emax (Z.of_nat n) 0 false;
  sdot := dot_accumulate prec emax;
|}.

Definition is_finite (f : spec_float) : bool :=
  match f with
  | S754_zero _ | S754_finite _ _ _ => true
  | S754_infinity _ | S754_nan => false
  end.

Definition binary32 : Scalar spec_float := of_format 24 128.
Definition binary64 : Scalar spec_float := of_format 53 1024.

(** Small integers as floats of the format, for examples. *)
Definition of_Z (prec emax : Z) (z : Z) : spec_float :=
  binary_normalize prec emax z 0 false.

Definition pinf : spec_float := S754_infinity false.

End Float.

(** ** Exceptions and the layer monad *)

(** The exception classes.  The constructors of the framework and of the
    base class report a rejected argument (a negative number of units, an
    unknown name of an aggregation or of an activation) with one class,
    [ValueError]. *)
Inductive exn :=
| ShapeMismatchError
| IndexOutOfRangeError
| ValueError
| TypeError
| AttributeError
| AssertionError.

(** The specification's name for the error of a rejected constructor
    argument; in the program it is the class [ValueError]. *)
Abbreviation ConfigurationError := ValueError (only parsing).

Inductive Result (A : Type) :=
| Ok (a : A)
| Raise (e : exn).
Arguments Ok {A} a.
Arguments Raise {A} e.

(** A method of a layer object: it reads and updates [self] and either
    returns a value or raises. *)
Definition M (S A : Type) : Type := S -> Result (A * S).

Definition ret {S A} (a : A) : M S A := fun s => Ok (a, s).
Definition raise {S A} (e : exn) : M S A := fun _ => Raise e.
Definition bind {S A B} (m : M S A) (k : A -> M S B) : M S B :=
  fun s => match m s with
           | Ok (a, s') => k a s'
           | Raise e => Raise e
           end.
Definition get {S} : M S S := fun s => Ok (s, s).
Definition gets {S A} (f : S -> A) : M S A := fun s => Ok (f s, s).
Definition modify {S} (f : S -> S) : M S unit := fun s => Ok (tt, f s).
Definition lift {S A} (r : Result A) : M S A :=
  fun s => match r with Ok a => Ok (a, s) | Raise e => Raise e end.

Declare Scope layer_scope.
Delimit Scope layer_scope with layer.
Notation "x <- m ;; k" := (bind m (fun x => k))
  (at level 20, m at level 99, k at level 200, only parsing) : layer_scope.
Notation "' p <- m ;; k" := (bind m (fun x => let 'p := x in k))
  (at level 20, p pattern, m at level 99, k at level 200, only parsing)
  : layer_scope.

Definition rbind {A B} (r : Result A) (k : A -> Result B) : Result B :=
  match r with Ok a => k a | Raise e => Raise e end.

Fixpoint rmapM {A B} (f : A -> Result B) (l : list A) : Result (list B) :=
  match l with
  | [] => Ok []
  | a :: l' => rbind (f a) (fun b => rbind (rmapM f l') (fun bs => Ok (b :: bs)))
  end.

(** ** Tensors of the host framework *)

(** A rank-1 tensor. *)
Abbreviation Vec R := (list R) (only parsing).

Section Tensors.
Context {R : Type} `{Scalar R}.

(** A rank-2 tensor of static shape [(length rows, ncols)], row-major. *)
Record Tensor := mkTensor {
  ncols : nat;
  rows : list (Vec R);
}.

(** [tf.SparseTensor]: entry [k] of [values] sits at [indices !! k],
    a (row, column) position. *)
Record SparseTensor := mkSparse {
  indices : list (nat * nat);
  values : Vec R;
  dense_shape : nat * nat;
}.

(** [tf.zeros((n,))]. *)
Definition zeros (n : nat) : Vec R := replicate n szero.

(** [tf.gather(x, idx)]: rows of [x] at the positions [idx], in the
    order of [idx]; a position outside [x] is rejected. *)
Definition gather (x : Tensor) (idx : list nat) : Result Tensor :=
  rbind (rmapM (fun i => match rows x !! i with
                         | Some r => Ok r
                         | None => Raise IndexOutOfRangeError
                         end) idx)
        (fun rs => Ok (mkTensor (ncols x) rs)).

(** [u - v], entry by entry. *)
Definition vsub (u v : Vec R) : Vec R := zip_with ssub u v.

(** [a - b] on two tensors of one shape. *)
Definition tsub (a b : Tensor) : Result Tensor :=
  if decide (ncols a = ncols b /\ length (rows a) = length (rows b))
  then Ok (mkTensor (ncols a) (zip_with vsub (rows a) (rows b)))
  else Raise ShapeMismatchError.

(** [w * r] for a scalar [w]. *)
Definition vscale (w : R) (r : Vec R) : Vec R := map (smul w) r.

(** [w[:, None] * x]: a column of [length w] weights against a tensor;
    equal leading dimensions pair up row by row, a leading dimension of
    one is broadcast. *)
Definition scale_rows (w : Vec R) (x : Tensor) : Result Tensor :=
  if decide (length w = length (rows x))
  then Ok (mkTensor (ncols x) (zip_with vscale w (rows x)))
  else match w, rows x with
       | [w0], rs => Ok (mkTensor (ncols x) (map (vscale w0) rs))
       | ws, [r] => Ok (mkTensor (ncols x) (map (fun wk => vscale wk r) ws))
       | _, _ => Raise ShapeMismatchError
       end.

(** [K.concatenate((a, b))] along the last axis. *)
Definition concat2 (a b : Tensor) : Result Tensor :=
  if decide (length (rows a) = length (rows b))
  then Ok (mkTensor (ncols a + ncols b) (zip_with app (rows a) (rows b)))
  else Raise ShapeMismatchError.

(** [K.concatenate(tensors)] along the last axis, left to right. *)
Fixpoint concatenate_from (acc : Tensor) (ts : list Tensor) : Result Tensor :=
  match ts with
  | [] => Ok acc
  | t :: ts' => rbind (concat2 acc t) (fun acc' => concatenate_from acc' ts')
  end.

Definition concatenate (ts : list Tensor) : Result Tensor :=
  match ts with
  | [] => Raise ValueError
  | t :: ts' => concatenate_from t ts'
  end.

(** *** Activations, initializers *)

(** A resolved Keras activation: it acts along the last axis and keeps the
    shape of its argument. *)
Record Activation := mkActivation {
  act_fn : Vec R -> Vec R;
  act_shape : forall v, length (act_fn v) = length v;
}.

Definition linear_activation : Activation :=
  {| act_fn := fun v => v; act_shape := fun v => eq_refl |}.

Definition elementwise (f : R -> R) : Activation :=
  {| act_fn := map f; act_shape := length_map f |}.

Definition relu : Activation := elementwise (fun v => smax v szero).

(** [activations.get] on an argument that is [None] or a callable: [None]
    is the linear activation, a callable is returned as it is. *)
Definition activations_get (a : option Activation) : Activation :=
  default linear_activation a.

(** The argument of [activations.get] as a caller writes it: [None], the
    name of a built-in activation (a string), or a callable. *)
Inductive Identifier :=
| IdNone
| IdName (name : string)
| IdCallable (f : Activation).

(** The built-in activations of [keras.activations], by name. *)
Class Activations := {
  activation_named : string -> option Activation;
}.

(** [activations.deserialize(name)]: the built-in activation of that name;
    an unknown name is rejected. *)
Definition activations_deserialize `{Activations} (name : string)
    : Result Activation :=
  match activation_named name with
  | Some f => Ok f
  | None => Raise ValueError
  end.

(** [activations.get(identifier)] on any of the three forms of the
    argument; it raises exactly on a name that is not a built-in's. *)
Definition activations_get_identifier `{Activations}
    (identifier : Identifier) : Result Activation :=
  match identifier with
  | IdNone => Ok (activations_get None)
  | IdName name => activations_deserialize name
  | IdCallable f => Ok (activations_get (Some f))
  end.

(** An initializer gives the entries of a weight of the requested shape. *)
Definition Initializer : Type := nat -> nat -> nat -> nat -> R.

Definition zeros_initializer : Initializer := fun _ _ _ _ => szero.

(** The keyword arguments every learnable layer of the repository
    forwards ([layer_kwargs] in [EdgeConv.build]). *)
Record LayerKwargs := mkLayerKwargs {
  kernel_initializer : Initializer;
  bias_initializer : Initializer;
  kernel_regularizer : option string;
  bias_regularizer : option string;
  kernel_constraint : option string;
  bias_constraint : option string;
}.

(** *** [keras.layers.Dense] *)

(** The weights of a built layer: a kernel of shape [(in_dim, units)] and a
    bias of shape [(units,)], by entry. *)
Record Weights := mkWeights {
  in_dim : nat;
  kernel : nat -> nat -> R;
  bias : nat -> R;
}.

(** A [Dense] layer: its configuration and, once built, its weights. *)
Record Dense := mkDense {
  units : nat;
  d_activation : Activation;
  d_use_bias : bool;
  d_kwargs : LayerKwargs;
  d_activity_regularizer : option string;
  d_dtype : option string;
  d_weights : option Weights;
}.

(** [Dense(units, activation=None, use_bias=True, ..., **kwargs)].  An
    argument the caller leaves out is [None] here and takes the
    constructor's default.  Keras rejects a negative [units]. *)
Definition Dense_init (n : Z) (activation : option Activation)
    (use_bias : option bool) (kw : LayerKwargs)
    (activity_regularizer : option string) (dtype : option string)
    : Result Dense :=
  if (n <? 0)%Z then Raise ValueError
  else Ok {| units := Z.to_nat n;
             d_activation := activations_get activation;
             d_use_bias := default true use_bias;
             d_kwargs := kw;
             d_activity_regularizer := activity_regularizer;
             d_dtype := dtype;
             d_weights := None |}.

(** [Dense.build]: weights of shape [(in_dim, units)] and [(units,)]. *)
Definition dense_build (d : Dense) (width : nat) : Weights :=
  {| in_dim := width;
     kernel := kernel_initializer (d_kwargs d) width (units d);
     bias := bias_initializer (d_kwargs d) 1 (units d) 0 |}.

(** The inner product of the row [r] with a kernel column, the entries of
    [r] being numbered from [i]: one entry of the backend's matrix product
    [dot(x, kernel)]. *)
Definition dot (r : Vec R) (i : nat) (col : nat -> R) : R :=
  sdot r (map col (seq i (length r))).

(** One row of the output: [activation(dot(r, kernel) + bias)], the bias
    only with [use_bias]. *)
Definition dense_row (d : Dense) (w : Weights) (r : Vec R) : Vec R :=
  act_fn (d_activation d)
    (map (fun j => let s := dot r 0 (fun i => kernel w i j) in
                   if d_use_bias d then sadd s (bias w j) else s)
         (seq 0 (units d))).

(** The layer [d] holding the weights [w]. *)
Definition set_weights (d : Dense) (w : Weights) : Dense :=
  {| units := units d;
     d_activation := d_activation d;
     d_use_bias := d_use_bias d;
     d_kwargs := d_kwargs d;
     d_activity_regularizer := d_activity_regularizer d;
     d_dtype := d_dtype d;
     d_weights := Some w |}.

(** [Dense.__call__]: build on the first call, then
    [activation(dot(x, kernel) + bias)]. *)
Definition dense_call (d : Dense) (x : Tensor) : Result (Tensor * Dense) :=
  rbind (match d_weights d with
         | None => Ok (dense_build d (ncols x))
         | Some w => if decide (in_dim w = ncols x) then Ok w
                     else Raise ShapeMismatchError
         end)
        (fun w => Ok (mkTensor (units d) (map (dense_row d w) (rows x)),
                      set_weights d w)).

(** [keras.models.Sequential.__call__]: the layers in order. *)
Fixpoint sequential_call (layers : list Dense) (x : Tensor)
    : Result (Tensor * list Dense) :=
  match layers with
  | [] => Ok (x, [])
  | d :: ds =>
      rbind (dense_call d x) (fun '(y, d') =>
      rbind (sequential_call ds y) (fun '(z, ds') => Ok (z, d' :: ds')))
  end.

End Tensors.

Arguments Tensor R : clear implicits.
Arguments SparseTensor R : clear implicits.
Arguments Activation R : clear implicits.
Arguments Identifier R : clear implicits.
Arguments Activations R : clear implicits.
Arguments LayerKwargs R : clear implicits.
Arguments Weights R : clear implicits.
Arguments Dense R : clear implicits.
Arguments Initializer R : clear implicits.

(** ** The [MessagePassing] base class

    [spektral/layers/convolutional/message_passing.py] is not among the
    source files; this section follows the specification's description of
    the class. *)

(** Modelled from the spec: the aggregation mode, "one of sum, mean,
    max". *)
Inductive Aggregate := AggSum | AggMean | AggMax.

Section MessagePassing.
Context {R : Type} `{Scalar R}.
Local Open Scope layer_scope.

(** Modelled from the spec: the keyword arguments that [propagate] hands
    on to [message], the "precomputed edge attributes such as weights". *)
Record Kwargs := mkKwargs {
  edge_weight : option (Vec R);
}.

(** One invocation of [propagate], with its arguments: an entry of the
    trace [propagate_log]. *)
Record PropagateCall := mkPropagateCall {
  pc_x : Tensor R;
  pc_a : SparseTensor R;
  pc_kwargs : Kwargs;
}.

(** Modelled from the spec: the attributes of [self] owned by the base
    class, the "aggregation mode, activation function, and standard
    learnable-parameter configuration" of the constructor and "the current
    edge list" ([index_targets], [index_sources], [n_nodes]), which is
    unset until [propagate] runs.  [propagate_log] is a trace of the
    [propagate] calls made on the object, kept for the statements about
    the number and the arguments of these calls. *)
Record MessagePassing := mkMessagePassing {
  agg : Aggregate;
  activation : Activation R;
  use_bias : bool;
  kwargs : LayerKwargs R;
  activity_regularizer : option string;
  dtype : string;
  built : bool;
  index_targets : option (list nat);
  index_sources : option (list nat);
  n_nodes : nat;
  propagate_log : list PropagateCall;
}.

(** Modelled from the spec: the check of the aggregation mode by name,
    "one of sum, mean, max". *)
Definition deserialize_aggregate (name : string) : Result Aggregate :=
  if decide (name = "sum") then Ok AggSum
  else if decide (name = "mean") then Ok AggMean
  else if decide (name = "max") then Ok AggMax
  else Raise ConfigurationError.

(** Modelled from the spec: [MessagePassing.__init__], which "validates
    aggregation mode is one of the supported set; fails with
    ConfigurationError otherwise" and stores the learnable-parameter
    configuration. *)
Definition MessagePassing_init (aggregate : string)
    (act : option (Activation R)) (bias_flag : bool) (kw : LayerKwargs R)
    (act_reg : option string) : Result MessagePassing :=
  rbind (deserialize_aggregate aggregate) (fun g =>
    Ok {| agg := g;
          activation := activations_get act;
          use_bias := bias_flag;
          kwargs := kw;
          activity_regularizer := act_reg;
          dtype := "float32";
          built := false;
          index_targets := None;
          index_sources := None;
          n_nodes := 0;
          propagate_log := [] |}).

(** Modelled from the spec: [propagate] "unpacks edges" from [a], each
    "edge = (source index, target index, optional scalar weight)": column 0
    of [a.indices] holds the sources and column 1 the targets, in edge
    order; the call is appended to the trace. *)
Definition set_edges (x : Tensor R) (a : SparseTensor R) (kw : Kwargs)
    (s : MessagePassing) : MessagePassing :=
  {| agg := agg s; activation := activation s; use_bias := use_bias s;
     kwargs := kwargs s; activity_regularizer := activity_regularizer s;
     dtype := dtype s; built := built s;
     index_targets := Some (map snd (indices a));
     index_sources := Some (map fst (indices a));
     n_nodes := length (rows x);
     propagate_log := propagate_log s ++ [mkPropagateCall x a kw] |}.

(** [self.built = True]. *)
Definition set_built (s : MessagePassing) : MessagePassing :=
  {| agg := agg s; activation := activation s; use_bias := use_bias s;
     kwargs := kwargs s; activity_regularizer := activity_regularizer s;
     dtype := dtype s; built := true;
     index_targets := index_targets s; index_sources := index_sources s;
     n_nodes := n_nodes s; propagate_log := propagate_log s |}.

(** Reading an attribute that may not have been set yet. *)
Definition attribute {A} (o : option A) : M MessagePassing A :=
  match o with Some a => ret a | None => raise AttributeError end.

(** Modelled from the spec: [get_sources], the "gathered feature vectors at
    source indices / target indices respectively, one row per edge, in edge
    order". *)
Definition get_sources (x : Tensor R) : M MessagePassing (Tensor R) :=
  idx <- bind (gets index_sources) attribute ;;
  lift (gather x idx).

(** Modelled from the spec: [get_targets], the gather at the target
    indices. *)
Definition get_targets (x : Tensor R) : M MessagePassing (Tensor R) :=
  idx <- bind (gets index_targets) attribute ;;
  lift (gather x idx).

(** Entrywise sum and maximum of two messages. *)
Definition vadd (u v : Vec R) : Vec R := zip_with sadd u v.
Definition vmax (u v : Vec R) : Vec R := zip_with smax u v.

(** Modelled from the spec: the reduction of the messages that arrive at
    one node; "mean divides sum per node by that node's observed
    in-degree", "max is a per-coordinate maximum across incoming messages",
    and a node with no incoming edge receives zeros. *)
Definition reduce (g : Aggregate) (width : nat) (ms : list (Vec R)) : Vec R :=
  match g, ms with
  | _, [] => zeros width
  | AggSum, _ => foldl vadd (zeros width) ms
  | AggMean, _ =>
      map (fun v => sdiv v (scount (length ms))) (foldl vadd (zeros width) ms)
  | AggMax, m :: ms' => foldl vmax m ms'
  end.

(** Modelled from the spec: the messages whose target is the node [n], in
    edge order ("grouping rows by target index"). *)
Definition incoming (targets : list nat) (ms : list (Vec R)) (n : nat)
    : list (Vec R) :=
  map snd (filter (fun p => fst p = n) (zip targets ms)).

(** Modelled from the spec: [aggregate], which "reduces the per-edge
    message matrix into a per-node matrix of shape (n_nodes,
    message_width) by grouping rows by target index and applying the
    configured reduction"; a node without incoming edge gets zeros. *)
Definition aggregate (messages : Tensor R) : M MessagePassing (Tensor R) :=
  targets <- bind (gets index_targets) attribute ;;
  n <- gets n_nodes ;;
  g <- gets agg ;;
  if decide (length targets = length (rows messages))
  then ret (mkTensor (ncols messages)
              (map (fun i => reduce g (ncols messages)
                               (incoming targets (rows messages) i))
                   (seq 0 n)))
  else raise ShapeMismatchError.

(** Modelled from the spec: a layer variant is an object that embeds the
    attributes of the base class. *)
Class Subclass (L : Type) := {
  base : L -> MessagePassing;
  set_base : MessagePassing -> L -> L;
}.

(** Modelled from the spec: the "overridable hooks" [message] and
    [update] of a layer variant; [propagate] calls the variant's own. *)
Class Hooks (L : Type) := {
  message : Tensor R -> Kwargs -> M L (Tensor R);
  update : Tensor R -> M L (Tensor R);
}.

(** A method inherited from the base class, run on the embedded base
    object. *)
Definition inherited {L A} `{Subclass L}
    (m : M MessagePassing A) : M L A :=
  fun self => match m (base self) with
              | Ok (a, b') => Ok (a, set_base b' self)
              | Raise e => Raise e
              end.

(** Modelled from the spec: the invariant "indices in [0, N)" of the
    adjacency, checked for both ends of every edge. *)
Definition indices_in_range (a : SparseTensor R) (n : nat) : bool :=
  forallb (fun p => (fst p <? n)%nat && (snd p <? n)%nat) (indices a).

(** Modelled from the spec: [propagate], which "orchestrates the full
    pipeline" (unpack the edges of [a], call [message], call [aggregate],
    call [update]) and rejects an adjacency that "references a node index
    >= n_nodes" before any gather. *)
Definition propagate {L} `{Subclass L} `{Hooks L}
    (x : Tensor R) (a : SparseTensor R) (kw : Kwargs) : M L (Tensor R) :=
  _ <- inherited (modify (set_edges x a kw)) ;;
  if indices_in_range a (length (rows x)) then
    messages <- message x kw ;;
    embeddings <- inherited (aggregate messages) ;;
    update embeddings
  else raise IndexOutOfRangeError.

(** Modelled from the spec: the input bundle "(node features, sparse
    adjacency, optional graph-partition tag)". *)
Record Inputs := mkInputs {
  in_x : Tensor R;
  in_a : SparseTensor R;
  in_i : option (list nat);
}.

(** Modelled from the spec: [get_inputs], which "unpacks (node features,
    adjacency, optional graph-partition tag) from the input tuple". *)
Definition get_inputs {L} (inputs : Inputs)
    : M L (Tensor R * SparseTensor R * option (list nat)) :=
  ret (in_x inputs, in_a inputs, in_i inputs).

(** Modelled from the spec: the degree of node [i], entry [i] of the
    diagonal matrix D of [spektral.utils.normalized_adjacency]: the sum of
    row [i] of the adjacency. *)
Definition degree (a : SparseTensor R) (i : nat) : R :=
  foldl sadd szero
    (map snd (filter (fun p => fst (fst p) = i) (zip (indices a) (values a)))).

(** Modelled from the spec: the entry [d^-1/2] of [D^-1/2]. *)
Definition inv_sqrt (d : R) : R := sdiv sone (ssqrt d).

(** Modelled from the spec: [spektral.utils.normalized_adjacency], the
    "symmetric degree normalization of the adjacency (D^-1/2 A D^-1/2)":
    the entry at (i, j) becomes [(d_i^-1/2 * a_ij) * d_j^-1/2]. *)
Definition normalized_adjacency (a : SparseTensor R) : SparseTensor R :=
  {| indices := indices a;
     values := zip_with (fun p v =>
                 smul (smul (inv_sqrt (degree a (fst p))) v)
                      (inv_sqrt (degree a (snd p))))
                 (indices a) (values a);
     dense_shape := dense_shape a |}.

End MessagePassing.

Arguments Kwargs R : clear implicits.
Arguments PropagateCall R : clear implicits.
Arguments MessagePassing R : clear implicits.
Arguments Inputs R : clear implicits.
Arguments Hooks R L : clear implicits.
Arguments Subclass R L : clear implicits.

(** Values of a layer's [config] dictionary. *)
Inductive ConfigValue (R : Type) :=
| VInt (z : Z)
| VInts (l : list Z)
| VActivation (a : Activation R).
Arguments VInt {R} z.
Arguments VInts {R} l.
Arguments VActivation {R} a.

(** ** [tag_conv.py] *)

Module TAGConv.
Section TAGConv.
Context {R : Type} `{Scalar R}.
Local Open Scope layer_scope.

(** The attributes of a [TAGConv] object: those of the base class,
    [channels], [K] and the [Dense] layer [linear]. *)
Record t := mk {
  mp : MessagePassing R;
  channels : Z;
  K : Z;
  linear : Dense R;
}.

Definition set_mp (b : MessagePassing R) (self : t) : t :=
  mk b (channels self) (K self) (linear self).
Definition set_linear (d : Dense R) (self : t) : t :=
  mk (mp self) (channels self) (K self) d.

#[global] Instance subclass : Subclass R t :=
  {| base := mp; set_base := set_mp |}.

(** The arguments of the constructor. *)
Record Args := mkArgs {
  arg_channels : Z;
  arg_K : Z;
  arg_aggregate : string;
  arg_activation : option (Activation R);
  arg_use_bias : bool;
  arg_kwargs : LayerKwargs R;
  arg_activity_regularizer : option string;
}.

(** The defaults of the signature; [glorot_uniform] is the sampled
    default kernel initializer. *)
Definition default_args (c : Z) (glorot_uniform : Initializer R) : Args :=
  {| arg_channels := c;
     arg_K := 3;
     arg_aggregate := "sum";
     arg_activation := None;
     arg_use_bias := true;
     arg_kwargs := {| kernel_initializer := glorot_uniform;
                      bias_initializer := zeros_initializer;
                      kernel_regularizer := None;
                      bias_regularizer := None;
                      kernel_constraint := None;
                      bias_constraint := None |};
     arg_activity_regularizer := None |}.

(** Lines 50-92: [super().__init__(...)], then the three assignments. *)
Definition __init__ (a : Args) : Result t :=
  rbind (MessagePassing_init (arg_aggregate a) (arg_activation a)
           (arg_use_bias a) (arg_kwargs a) (arg_activity_regularizer a))
    (fun super =>
  rbind (Dense_init (arg_channels a) (arg_activation a)
           (Some (arg_use_bias a)) (arg_kwargs a)
           (arg_activity_regularizer a) None)
    (fun lin => Ok (mk super (arg_channels a) (arg_K a) lin))).

(** Lines 94-96. *)
Definition build (input_shape : list nat) : M t unit :=
  if decide (2 <= length input_shape)%nat
  then inherited (modify set_built)
  else raise AssertionError.

(** Lines 109-111: [edge_weight[:, None] * x_j]; indexing the default
    [None] raises. *)
Definition message (x : Tensor R) (kw : Kwargs R) : M t (Tensor R) :=
  x_j <- inherited (get_sources x) ;;
  match edge_weight kw with
  | Some w => lift (scale_rows w x_j)
  | None => raise TypeError
  end.

#[global] Instance hooks : Hooks R t :=
  Build_Hooks t message ret.

(** Lines 103-104:
    [for _ in range(n): output.append(self.propagate(x, a, ...))]. *)
Fixpoint hops (n : nat) (x : Tensor R) (a : SparseTensor R) (kw : Kwargs R)
    (output : list (Tensor R)) : M t (list (Tensor R)) :=
  match n with
  | O => ret output
  | S n' => h <- propagate x a kw ;; hops n' x a kw (output ++ [h])
  end.

(** Lines 99-104 of [call]: the list [output] when the loop is left;
    [range(self.K)] is empty for [K <= 0]. *)
Definition call_blocks (inputs : Inputs R) : M t (list (Tensor R)) :=
  ' (x, a, _) <- get_inputs inputs ;;
  let edge_weight := values a in
  k <- gets K ;;
  hops (Z.to_nat k) x a (mkKwargs (Some edge_weight)) [x].

(** Line 105 of [call]: the tensor [output] that is handed to
    [self.linear]. *)
Definition call_concat (inputs : Inputs R) : M t (Tensor R) :=
  output <- call_blocks inputs ;;
  lift (concatenate output).

(** [self.linear(x)]; the first call builds the weights of [linear]. *)
Definition apply_linear (x : Tensor R) : M t (Tensor R) :=
  fun self => match dense_call (linear self) x with
              | Ok (y, d) => Ok (y, set_linear d self)
              | Raise e => Raise e
              end.

(** Lines 98-107. *)
Definition call (inputs : Inputs R) : M t (Tensor R) :=
  output <- call_concat inputs ;;
  apply_linear output.

(** Lines 113-117. *)
Definition config (self : t) : gmap string (ConfigValue R) :=
  {[ "channels" := VInt (channels self) ]}.

(** Lines 119-121. *)
Definition preprocess (a : SparseTensor R) : SparseTensor R :=
  normalized_adjacency a.

End TAGConv.
End TAGConv.

Arguments TAGConv.t R : clear implicits.
Arguments TAGConv.Args R : clear implicits.

(** ** [edge_conv.py] *)

Module EdgeConv.
Section EdgeConv.
Context {R : Type} `{Scalar R} {builtins : Activations R}.
Local Open Scope layer_scope.

(** The attributes of an [EdgeConv] object; [mlp] is unset until [build]
    has run. *)
Record t := mk {
  mp : MessagePassing R;
  channels : Z;
  mlp_hidden : list Z;
  mlp_activation : Activation R;
  mlp : option (list (Dense R));
}.

Definition set_mp (b : MessagePassing R) (self : t) : t :=
  mk b (channels self) (mlp_hidden self) (mlp_activation self) (mlp self).
Definition set_mlp (layers : list (Dense R)) (self : t) : t :=
  mk (mp self) (channels self) (mlp_hidden self) (mlp_activation self)
     (Some layers).

#[global] Instance subclass : Subclass R t :=
  {| base := mp; set_base := set_mp |}.

Record Args := mkArgs {
  arg_channels : Z;
  arg_mlp_hidden : option (list Z);
  arg_mlp_activation : Identifier R;
  arg_aggregate : string;
  arg_activation : option (Activation R);
  arg_use_bias : bool;
  arg_kwargs : LayerKwargs R;
  arg_activity_regularizer : option string;
}.

Definition default_args (c : Z) (glorot_uniform : Initializer R) : Args :=
  {| arg_channels := c;
     arg_mlp_hidden := None;
     arg_mlp_activation := IdName "relu";
     arg_aggregate := "sum";
     arg_activation := None;
     arg_use_bias := true;
     arg_kwargs := {| kernel_initializer := glorot_uniform;
                      bias_initializer := zeros_initializer;
                      kernel_regularizer := None;
                      bias_regularizer := None;
                      kernel_constraint := None;
                      bias_constraint := None |};
     arg_activity_regularizer := None |}.

(** Lines 54-86: [super().__init__(...)], then the three assignments in
    the order of the source: [channels], [mlp_hidden if mlp_hidden else []]
    and, on line 86, [activations.get(mlp_activation)], which raises on an
    unknown name after the base-class constructor has returned. *)
Definition __init__ (a : Args) : Result t :=
  rbind (MessagePassing_init (arg_aggregate a) (arg_activation a)
           (arg_use_bias a) (arg_kwargs a) (arg_activity_regularizer a))
    (fun super =>
  let channels := arg_channels a in
  let mlp_hidden := match arg_mlp_hidden a with
                    | Some (c :: cs) => c :: cs
                    | Some [] | None => []
                    end in
  rbind (activations_get_identifier (arg_mlp_activation a))
    (fun mlp_activation =>
  Ok (mk super channels mlp_hidden mlp_activation None))).

(** Lines 88-115: the hidden layers are
    [Dense(channels, self.mlp_activation, **layer_kwargs)], without
    [use_bias]; the last one is
    [Dense(self.channels, self.activation, use_bias=self.use_bias,
    **layer_kwargs)]. *)
Definition build (input_shape : list nat) : M t unit :=
  if decide (2 <= length input_shape)%nat then
    self <- get ;;
    let layer_kwargs := kwargs (mp self) in
    let dt := Some (dtype (mp self)) in
    hidden <- lift (rmapM (fun c =>
                 Dense_init c (Some (mlp_activation self)) None
                   layer_kwargs None dt)
               (mlp_hidden self)) ;;
    final <- lift (Dense_init (channels self) (Some (activation (mp self)))
                     (Some (use_bias (mp self))) layer_kwargs None dt) ;;
    _ <- modify (set_mlp (hidden ++ [final])) ;;
    inherited (modify set_built)
  else raise AssertionError.

(** [self.mlp(x)]; the first call builds the weights of the layers. *)
Definition apply_mlp (layers : list (Dense R)) (x : Tensor R)
    : M t (Tensor R) :=
  fun self => match sequential_call layers x with
              | Ok (y, layers') => Ok (y, set_mlp layers' self)
              | Raise e => Raise e
              end.

(** Lines 117-120: [self.mlp(K.concatenate((x_i, x_j - x_i)))]. *)
Definition message (x : Tensor R) (kw : Kwargs R) : M t (Tensor R) :=
  x_i <- inherited (get_targets x) ;;
  x_j <- inherited (get_sources x) ;;
  layers <- (fun self => match mlp self with
                         | Some f => Ok (f, self)
                         | None => Raise AttributeError
                         end) ;;
  d <- lift (tsub x_j x_i) ;;
  c <- lift (concatenate [x_i; d]) ;;
  apply_mlp layers c.

#[global] Instance hooks : Hooks R t :=
  Build_Hooks t message ret.

(** Lines 122-128. *)
Definition config (self : t) : gmap string (ConfigValue R) :=
  {[ "channels" := VInt (channels self);
     "mlp_hidden" := VInts (mlp_hidden self);
     "mlp_activation" := VActivation (mlp_activation self) ]}.

End EdgeConv.
End EdgeConv.

Arguments EdgeConv.t R : clear implicits.
Arguments EdgeConv.Args R : clear implicits.

(** * Notions used in the statements *)

Section Derived.
Context {R : Type} `{Scalar R}.

(** The value of one [propagate] call of a [TAGConv] layer, as a function
    of the call's arguments and the layer's aggregation mode. *)
Definition hop_value (g : Aggregate) (x : Tensor R) (a : SparseTensor R)
    (w : Vec R) : Result (Tensor R) :=
  if indices_in_range a (length (rows x)) then
    rbind (gather x (map fst (indices a))) (fun x_j =>
    rbind (scale_rows w x_j) (fun m =>
      if decide (length (map snd (indices a)) = length (rows m))
      then Ok (mkTensor (ncols m)
                 (map (fun i => reduce g (ncols m)
                                  (incoming (map snd (indices a)) (rows m) i))
                      (seq 0 (length (rows x)))))
      else Raise ShapeMismatchError))
  else Raise IndexOutOfRangeError.

(** The layer object after a [propagate] call that returned. *)
Definition after_hop (x : Tensor R) (a : SparseTensor R) (kw : Kwargs R)
    (self : TAGConv.t R) : TAGConv.t R :=
  TAGConv.set_mp (set_edges x a kw (TAGConv.mp self)) self.

(** The constructor ties [linear] to [channels]. *)
Definition TAGConv_linked (self : TAGConv.t R) : Prop :=
  Z.of_nat (units (TAGConv.linear self)) = TAGConv.channels self.

(** The function a built [Sequential] of [Dense] layers computes on one
    row. *)
Definition mlp_row (layers : list (Dense R)) (r : Vec R) : Vec R :=
  foldl (fun v d => match d_weights d with
                    | Some w => dense_row d w v
                    | None => v
                    end) r layers.

(** [d'] is the layer [d] once it holds weights; weights that [d] already
    had are kept. *)
Definition built_from (d d' : Dense R) : Prop :=
  exists w, d' = set_weights d w /\
            forall w0, d_weights d = Some w0 -> w = w0.

(** The input widths a stack of layers accepts. *)
Fixpoint mlp_accepts (layers : list (Dense R)) (width : nat) : Prop :=
  match layers with
  | [] => True
  | d :: ds =>
      match d_weights d with
      | None => True
      | Some w => in_dim w = width
      end /\ mlp_accepts ds (units d)
  end.

(** The rows [EdgeConv.message] feeds to the MLP. *)
Definition edge_rows (x_i x_j : list (Vec R)) : list (Vec R) :=
  zip_with (fun u v => u ++ vsub v u) x_i x_j.

End Derived.

(** * Notions used in the further properties *)

Section DerivedMore.
Context {R : Type} `{Scalar R}.

(** [build] has run: the MLP ends with a layer of [channels] units. *)
Definition EdgeConv_built (self : EdgeConv.t R) : Prop :=
  exists hidden final,
    EdgeConv.mlp self = Some (hidden ++ [final]) /\
    Z.of_nat (units final) = EdgeConv.channels self.

(** The concatenation that a [TAGConv.call] hands to [linear], as a
    function of the hop count, the aggregation mode and the inputs. *)
Definition concat_output (k : Z) (g : Aggregate) (inputs : Inputs R)
    : Result (Tensor R) :=
  let x := in_x inputs in
  let a := in_a inputs in
  rbind (match Z.to_nat k with
         | O => Ok []
         | S n => rbind (hop_value g x a (values a))
                    (fun h => Ok (replicate (S n) h))
         end)
        (fun hs => concatenate (x :: hs)).

(** The value and the built [linear] of a [TAGConv.call], as a function of
    the hop count, the aggregation mode, [linear] and the inputs. *)
Definition call_output (k : Z) (g : Aggregate) (lin : Dense R)
    (inputs : Inputs R) : Result (Tensor R * Dense R) :=
  rbind (concat_output k g inputs) (fun c => dense_call lin c).

(** The hop count, the aggregation mode and [linear] of two layer objects
    agree. *)
Definition same_parameters (s1 s2 : TAGConv.t R) : Prop :=
  TAGConv.K s1 = TAGConv.K s2 /\
  TAGConv.channels s1 = TAGConv.channels s2 /\
  agg (TAGConv.mp s1) = agg (TAGConv.mp s2) /\
  TAGConv.linear s1 = TAGConv.linear s2.

(** The row of [Dense] output that a freshly constructed [TAGConv] with the
    arguments [a] computes from the row [r] of a concatenation of width
    [width]. *)
Definition fresh_linear_row (a : TAGConv.Args R) (width : nat) (r : Vec R)
    : Vec R :=
  let n := Z.to_nat (TAGConv.arg_channels a) in
  act_fn (activations_get (TAGConv.arg_activation a))
    (map (fun j =>
            let s := dot r 0 (fun i =>
                       kernel_initializer (TAGConv.arg_kwargs a) width n i j) in
            if TAGConv.arg_use_bias a
            then sadd s (bias_initializer (TAGConv.arg_kwargs a) 1 n 0 j)
            else s)
         (seq 0 n)).

End DerivedMore.

(** * Concrete layers in float32 *)

Module Examples.

#[local] Existing Instance Float.binary32.

(** The value of a computation that returns. *)
Definition unwrap {A : Type} (r : Result A)
    : match r with Ok _ => A | Raise _ => unit end :=
  match r with Ok a => a | Raise _ => tt end.

Definition f32 (z : Z) : spec_float := Float.of_Z 24 128 z.
Definition half : spec_float := S754_finite false 8388608 (-24).

Definition ones : Initializer spec_float := fun _ _ _ _ => f32 1.

(** The built-in activations that the examples name. *)
Definition builtin_activations : Activations spec_float :=
  {| activation_named := fun name =>
       if decide (name = "relu") then Some relu
       else if decide (name = "linear") then Some linear_activation
       else None |}.
#[local] Existing Instance builtin_activations.

(** Three nodes of width two; edges 0 -> 1 of weight 1 and 1 -> 2 of
    weight 1/2; an entry of the index list is (source, target). *)
Definition x3 : Tensor spec_float :=
  mkTensor 2 [[f32 1; f32 2]; [f32 3; f32 4]; [f32 5; f32 6]].
Definition a3 : SparseTensor spec_float :=
  mkSparse [(0, 1); (1, 2)]%nat [f32 1; half] (3, 3)%nat.
Definition inputs3 : Inputs spec_float := mkInputs x3 a3 None.

(** [TAGConv(2, K=2, kernel_initializer="ones")]. *)
Definition tag_args : TAGConv.Args spec_float :=
  {| TAGConv.arg_channels := 2;
     TAGConv.arg_K := 2;
     TAGConv.arg_aggregate := "sum";
     TAGConv.arg_activation := None;
     TAGConv.arg_use_bias := true;
     TAGConv.arg_kwargs := TAGConv.arg_kwargs (TAGConv.default_args 2 ones);
     TAGConv.arg_activity_regularizer := None |}.

Definition tag_layer : TAGConv.t spec_float :=
  unwrap (TAGConv.__init__ tag_args).

(** The same constructor call with [K=0]. *)
Definition tag_args_K0 : TAGConv.Args spec_float :=
  {| TAGConv.arg_channels := 2;
     TAGConv.arg_K := 0;
     TAGConv.arg_aggregate := "sum";
     TAGConv.arg_activation := None;
     TAGConv.arg_use_bias := true;
     TAGConv.arg_kwargs := TAGConv.arg_kwargs (TAGConv.default_args 2 ones);
     TAGConv.arg_activity_regularizer := None |}.

Definition tag_layer_K0 : TAGConv.t spec_float :=
  unwrap (TAGConv.__init__ tag_args_K0).

(** One node without edges whose features cancel only after rounding:
    [1 + 1e8] is [1e8] in float32. *)
Definition x_cancel : Tensor spec_float :=
  mkTensor 3 [[f32 1; f32 100000000; f32 (-100000000)]].
Definition inputs_cancel : Inputs spec_float :=
  mkInputs x_cancel (mkSparse [] [] (1, 1)%nat) None.

(** [TAGConv(-1, K=2, kernel_initializer="ones")]: a negative channel
    count. *)
Definition tag_args_negative : TAGConv.Args spec_float :=
  {| TAGConv.arg_channels := -1;
     TAGConv.arg_K := 2;
     TAGConv.arg_aggregate := "sum";
     TAGConv.arg_activation := None;
     TAGConv.arg_use_bias := true;
     TAGConv.arg_kwargs := TAGConv.arg_kwargs (TAGConv.default_args 2 ones);
     TAGConv.arg_activity_regularizer := None |}.

(** Two nodes joined in both directions by edges of weight 2. *)
Definition x2 : Tensor spec_float := mkTensor 1 [[f32 1]; [f32 3]].
Definition a2 : SparseTensor spec_float :=
  mkSparse [(0, 1); (1, 0)]%nat [f32 2; f32 2] (2, 2)%nat.
Definition inputs2 : Inputs spec_float := mkInputs x2 a2 None.

(** [EdgeConv(1, use_bias=False, kernel_initializer="ones")], built, with
    the edge list of a one-node graph that has a self-loop. *)
Definition edge_args : EdgeConv.Args spec_float :=
  {| EdgeConv.arg_channels := 1;
     EdgeConv.arg_mlp_hidden := Some [2%Z];
     EdgeConv.arg_mlp_activation := IdNone;
     EdgeConv.arg_aggregate := "sum";
     EdgeConv.arg_activation := None;
     EdgeConv.arg_use_bias := false;
     EdgeConv.arg_kwargs := EdgeConv.arg_kwargs (EdgeConv.default_args 1 ones);
     EdgeConv.arg_activity_regularizer := None |}.

Definition loop_a : SparseTensor spec_float :=
  mkSparse [(0, 0)]%nat [f32 1] (1, 1)%nat.
Definition no_kwargs : Kwargs spec_float := mkKwargs None.

(** The layer as [propagate(x, a)] hands it to [message]. *)
Definition edge_layer_on (x : Tensor spec_float) (a : SparseTensor spec_float)
    : EdgeConv.t spec_float :=
  snd (unwrap (bind (EdgeConv.build [1; 1]%nat)
                 (fun _ => inherited (modify (set_edges x a no_kwargs)))
                 (unwrap (EdgeConv.__init__ edge_args)))).

Definition x_finite : Tensor spec_float := mkTensor 1 [[f32 3]].
Definition x_infinite : Tensor spec_float := mkTensor 1 [[Float.pinf]].

Definition tag_kwargs3 : Kwargs spec_float := mkKwargs (Some (values a3)).

(** The three-node graph with node features of width one. *)
Definition x3_narrow : Tensor spec_float :=
  mkTensor 1 [[f32 1]; [f32 2]; [f32 3]].
Definition inputs3_narrow : Inputs spec_float := mkInputs x3_narrow a3 None.

(** [EdgeConv(2, kernel_initializer="ones")], [mlp_hidden] left out. *)
Definition edge_args_default : EdgeConv.Args spec_float :=
  EdgeConv.default_args 2 ones.
Definition edge_layer_default : EdgeConv.t spec_float :=
  unwrap (EdgeConv.__init__ edge_args_default).

(** [EdgeConv(-1, mlp_hidden=[2], kernel_initializer="ones")]. *)
Definition edge_args_negative : EdgeConv.Args spec_float :=
  {| EdgeConv.arg_channels := -1;
     EdgeConv.arg_mlp_hidden := Some [2%Z];
     EdgeConv.arg_mlp_activation := IdNone;
     EdgeConv.arg_aggregate := "sum";
     EdgeConv.arg_activation := None;
     EdgeConv.arg_use_bias := true;
     EdgeConv.arg_kwargs := EdgeConv.arg_kwargs (EdgeConv.default_args 1 ones);
     EdgeConv.arg_activity_regularizer := None |}.

(** [EdgeConv(1, mlp_activation="no_such_activation",
    kernel_initializer="ones")]: a name that is no built-in's. *)
Definition edge_args_unknown : EdgeConv.Args spec_float :=
  {| EdgeConv.arg_channels := 1;
     EdgeConv.arg_mlp_hidden := None;
     EdgeConv.arg_mlp_activation := IdName "no_such_activation";
     EdgeConv.arg_aggregate := "sum";
     EdgeConv.arg_activation := None;
     EdgeConv.arg_use_bias := true;
     EdgeConv.arg_kwargs := EdgeConv.arg_kwargs (EdgeConv.default_args 1 ones);
     EdgeConv.arg_activity_regularizer := None |}.

Definition edge_layer_negative : EdgeConv.t spec_float :=
  unwrap (EdgeConv.__init__ edge_args_negative).

(** The layer of [edge_args], constructed and then built. *)
Definition edge_layer_new : EdgeConv.t spec_float :=
  unwrap (EdgeConv.__init__ edge_args).
Definition edge_layer_built : EdgeConv.t spec_float :=
  snd (unwrap (EdgeConv.build [1; 1]%nat edge_layer_new)).

(** The layer of [edge_args] with the edges of [a3] set, but not built. *)
Definition edge_layer_unbuilt : EdgeConv.t spec_float :=
  EdgeConv.set_mp (set_edges x3 a3 no_kwargs (EdgeConv.mp edge_layer_new))
    edge_layer_new.

End Examples.

(** * Properties *)

(** Unfolds the operations of the layer monad in the goal. *)
Ltac unfold_layer :=
  unfold bind, inherited, modify, gets, get, attribute, lift, ret, raise.

(** ** Results, gathers and concatenations *)

Section TensorFacts.
Context {R : Type} `{Scalar R}.

Lemma rbind_ok {A B} (r : Result A) (k : A -> Result B) (b : B) :
  rbind r k = Ok b -> exists a, r = Ok a /\ k a = Ok b.
Proof. destruct r as [a|e]; simpl; [eauto | discriminate]. Qed.

Lemma rmapM_ok {A B} (f : A -> Result B) (l : list A) (bs : list B) :
  rmapM f l = Ok bs ->
  length bs = length l /\
  forall k a, l !! k = Some a -> exists b, f a = Ok b /\ bs !! k = Some b.
Proof.
  revert bs. induction l as [|a l IH]; intros bs Hm; simpl in Hm.
  - injection Hm as <-. split; [reflexivity | intros k a Hk; discriminate].
  - apply rbind_ok in Hm as (b & Hb & Hm).
    apply rbind_ok in Hm as (bs' & Hbs & Hm). injection Hm as <-.
    destruct (IH _ Hbs) as [Hlen Hrows]. split; [simpl; congruence|].
    intros [|k] a' Hk; simpl in *.
    + injection Hk as <-. eauto.
    + eauto.
Qed.

Lemma rmapM_total {A B} (f : A -> Result B) (l : list A) :
  Forall (fun a => exists b, f a = Ok b) l -> exists bs, rmapM f l = Ok bs.
Proof.
  induction 1 as [|a l [b Hb] _ [bs Hbs]]; simpl; [eauto|].
  rewrite Hb, Hbs. simpl. eauto.
Qed.

Lemma gather_ok (x g : Tensor R) (idx : list nat) :
  gather x idx = Ok g ->
  ncols g = ncols x /\ length (rows g) = length idx /\
  forall k i, idx !! k = Some i ->
    exists r, rows x !! i = Some r /\ rows g !! k = Some r.
Proof.
  unfold gather. intros Hg. apply rbind_ok in Hg as (rs & Hrs & Hg).
  injection Hg as <-. simpl. apply rmapM_ok in Hrs as [Hlen Hrows].
  repeat split; [done|]. intros k i Hk.
  destruct (Hrows k i Hk) as (r & Hr & Hkr).
  destruct (rows x !! i) as [r'|] eqn:E; [|discriminate].
  injection Hr as ->. eauto.
Qed.

Lemma gather_total (x : Tensor R) (idx : list nat) :
  Forall (fun i => (i < length (rows x))%nat) idx ->
  exists g, gather x idx = Ok g.
Proof.
  intros Hin. unfold gather.
  destruct (rmapM_total (fun i => match rows x !! i with
                                  | Some r => Ok r
                                  | None => Raise IndexOutOfRangeError
                                  end) idx) as [rs Hrs].
  - eapply Forall_impl; [exact Hin|]. intros i Hi. simpl in Hi.
    destruct (lookup_lt_is_Some_2 (rows x) i Hi) as [r Hr].
    rewrite Hr. eauto.
  - rewrite Hrs. simpl. eauto.
Qed.

Lemma concatenate_from_rows (acc c : Tensor R) (ts : list (Tensor R)) :
  concatenate_from acc ts = Ok c ->
  length (rows c) = length (rows acc) /\
  Forall (fun t => length (rows t) = length (rows acc)) ts /\
  exists rest, length rest = length (rows acc) /\
               rows c = zip_with app (rows acc) rest.
Proof.
  revert acc. induction ts as [|t ts IH]; intros acc Hc; simpl in Hc.
  - injection Hc as <-. repeat split; [constructor|].
    exists (replicate (length (rows acc)) []). split.
    + apply length_replicate.
    + generalize (rows acc). intros l.
      induction l as [|r l IHl]; simpl; [done|].
      rewrite app_nil_r. by f_equal.
  - apply rbind_ok in Hc as (acc' & Hacc & Hc). unfold concat2 in Hacc.
    destruct (decide (length (rows acc) = length (rows t))) as [Hlen|];
      [|discriminate].
    injection Hacc as <-. destruct (IH _ Hc) as (Hl & Hall & rest & Hrl & Hrows).
    simpl in *. rewrite length_zip_with in Hl, Hrl.
    assert (Hz : length (zip_with app (rows acc) (rows t))
                 = length (rows acc)) by (rewrite length_zip_with; lia).
    rewrite Hz in Hall. repeat split; [lia| |].
    + constructor; [done|]. exact Hall.
    + exists (zip_with app (rows t) rest). split.
      * rewrite length_zip_with. lia.
      * rewrite Hrows. clear - Hlen Hrl.
        revert Hlen Hrl. generalize (rows acc) (rows t). intros l1 l2.
        revert l2 rest. induction l1 as [|r1 l1 IHl]; intros [|r2 l2] [|r3 rest];
          simpl; intros; try done.
        rewrite app_assoc. f_equal. apply IHl; lia.
Qed.

End TensorFacts.

(** ** One hop of [TAGConv] *)

Section TAGConvFacts.
Context {R : Type} `{Scalar R}.

Lemma TAGConv_propagate_eq x a w (self : TAGConv.t R) :
  propagate x a (mkKwargs (Some w)) self =
  match hop_value (agg (TAGConv.mp self)) x a w with
  | Ok h => Ok (h, after_hop x a (mkKwargs (Some w)) self)
  | Raise e => Raise e
  end.
Proof.
  destruct self as [b c k l].
  unfold propagate, hop_value, after_hop, message, TAGConv.hooks,
    TAGConv.message, aggregate, get_sources.
  unfold_layer.
  unfold base, set_base, TAGConv.subclass, TAGConv.set_mp, set_edges. cbn.
  destruct (indices_in_range a (length (rows x))); cbn; [|reflexivity].
  destruct (gather x (map fst (indices a))) as [x_j|e]; cbn; [|reflexivity].
  destruct (scale_rows w x_j) as [m|e]; cbn; [|reflexivity].
  destruct (decide (length (map snd (indices a)) = length (rows m)));
    reflexivity.
Qed.

Lemma after_hop_fields x a kw (self : TAGConv.t R) :
  agg (TAGConv.mp (after_hop x a kw self)) = agg (TAGConv.mp self) /\
  TAGConv.linear (after_hop x a kw self) = TAGConv.linear self /\
  TAGConv.K (after_hop x a kw self) = TAGConv.K self /\
  TAGConv.channels (after_hop x a kw self) = TAGConv.channels self /\
  propagate_log (TAGConv.mp (after_hop x a kw self)) =
    propagate_log (TAGConv.mp self) ++ [mkPropagateCall x a kw].
Proof. repeat split. Qed.

(** The loop of [call]: when one hop on these arguments returns [h], [n]
    iterations append [n] copies of [h] and log [n] identical calls. *)
Lemma TAGConv_hops_ok n x a w h (self : TAGConv.t R) output :
  hop_value (agg (TAGConv.mp self)) x a w = Ok h ->
  exists self',
    TAGConv.hops n x a (mkKwargs (Some w)) output self
      = Ok (output ++ replicate n h, self') /\
    agg (TAGConv.mp self') = agg (TAGConv.mp self) /\
    TAGConv.linear self' = TAGConv.linear self /\
    TAGConv.K self' = TAGConv.K self /\
    TAGConv.channels self' = TAGConv.channels self /\
    propagate_log (TAGConv.mp self') =
      propagate_log (TAGConv.mp self)
      ++ replicate n (mkPropagateCall x a (mkKwargs (Some w))).
Proof.
  revert self output. induction n as [|n IH]; intros self output Hh; simpl.
  - exists self. rewrite !app_nil_r. repeat split.
  - unfold bind. rewrite TAGConv_propagate_eq, Hh.
    destruct (after_hop_fields x a (mkKwargs (Some w)) self)
      as (Hg & Hl & Hk & Hc & Hlog).
    destruct (IH (after_hop x a (mkKwargs (Some w)) self) (output ++ [h]))
      as (self' & Hrun & Hg' & Hl' & Hk' & Hc' & Hlog').
    { by rewrite Hg. }
    exists self'. rewrite Hrun, <- app_assoc. simpl.
    repeat split; try congruence.
    rewrite Hlog', Hlog, <- app_assoc. reflexivity.
Qed.

Lemma TAGConv_hops_raise n x a w e (self : TAGConv.t R) output :
  hop_value (agg (TAGConv.mp self)) x a w = Raise e ->
  TAGConv.hops (S n) x a (mkKwargs (Some w)) output self = Raise e.
Proof.
  intros Hh. simpl. unfold bind. by rewrite TAGConv_propagate_eq, Hh.
Qed.

Lemma indices_in_range_Forall (a : SparseTensor R) (n : nat) :
  indices_in_range a n = true ->
  Forall (fun i => (i < n)%nat) (map fst (indices a)) /\
  Forall (fun i => (i < n)%nat) (map snd (indices a)).
Proof.
  unfold indices_in_range. induction (indices a) as [|[i j] l IH]; simpl.
  - intros _. split; constructor.
  - intros Hb. apply andb_true_iff in Hb as [Hij Hl].
    apply andb_true_iff in Hij as [Hi Hj].
    apply Nat.ltb_lt in Hi, Hj. destruct (IH Hl) as [IH1 IH2].
    split; constructor; assumption.
Qed.

Lemma scale_rows_ok (w : Vec R) (x m : Tensor R) :
  scale_rows w x = Ok m -> ncols m = ncols x.
Proof.
  unfold scale_rows. destruct (decide (length w = length (rows x))).
  - by intros [= <-].
  - destruct w as [|w0 [|w1 w]]; destruct (rows x) as [|r [|r' rs]];
      intros [= <-]; reflexivity.
Qed.

Lemma hop_value_shape g x a w h :
  hop_value g x a w = Ok h ->
  length (rows h) = length (rows x) /\ ncols h = ncols x.
Proof.
  unfold hop_value. destruct (indices_in_range a (length (rows x)));
    [|discriminate].
  intros Hh. apply rbind_ok in Hh as (x_j & Hg & Hh).
  apply rbind_ok in Hh as (m & Hm & Hh).
  destruct (decide (length (map snd (indices a)) = length (rows m)));
    [|discriminate].
  injection Hh as <-. simpl. rewrite length_map, length_seq.
  split; [reflexivity|].
  apply scale_rows_ok in Hm. apply gather_ok in Hg as (Hc & _). congruence.
Qed.

Lemma hop_value_total g x a w :
  indices_in_range a (length (rows x)) = true ->
  length w = length (indices a) ->
  exists h, hop_value g x a w = Ok h.
Proof.
  intros Hin Hw. unfold hop_value. rewrite Hin.
  destruct (indices_in_range_Forall _ _ Hin) as [Hsrc _].
  destruct (gather_total x _ Hsrc) as [x_j Hg]. rewrite Hg. simpl.
  apply gather_ok in Hg as (_ & Hlen & _). rewrite length_map in Hlen.
  unfold scale_rows.
  destruct (decide (length w = length (rows x_j))) as [_|Hne];
    [|congruence].
  simpl. rewrite length_map, length_zip_with.
  destruct (decide (length (indices a)
                    = (length w `min` length (rows x_j))%nat)) as [_|Hne];
    [eauto|].
  exfalso. apply Hne. rewrite Hlen, Hw. lia.
Qed.

End TAGConvFacts.

(** ** [TAGConv]: the forward pass *)

Section TAGConvCall.
Context {R : Type} `{Scalar R}.

Lemma TAGConv_call_blocks_eq inputs (self : TAGConv.t R) :
  TAGConv.call_blocks inputs self =
  TAGConv.hops (Z.to_nat (TAGConv.K self)) (in_x inputs) (in_a inputs)
    (mkKwargs (Some (values (in_a inputs)))) [in_x inputs] self.
Proof. reflexivity. Qed.

Lemma TAGConv_call_eq inputs (self : TAGConv.t R) :
  TAGConv.call inputs self =
  match TAGConv.call_blocks inputs self with
  | Ok (blocks, s) =>
      match concatenate blocks with
      | Ok c => TAGConv.apply_linear c s
      | Raise e => Raise e
      end
  | Raise e => Raise e
  end.
Proof.
  unfold TAGConv.call, TAGConv.call_concat, bind, lift.
  destruct (TAGConv.call_blocks inputs self) as [[blocks s]|e]; [|reflexivity].
  destruct (concatenate blocks); reflexivity.
Qed.

(** C1: [TAGConv.call] starts the output list with the input features [x],
    makes exactly [K] calls [propagate(x, a, edge_weight=a.values)], all on
    the original [x], appends each result, concatenates the [K+1] blocks and
    returns [self.linear] of the concatenation.  With no hop ([K <= 0]) the
    list is [[x]]; a hop that raises makes the call raise. *)
Theorem TAGConv_call_hops (self : TAGConv.t R) (inputs : Inputs R) :
  let x := in_x inputs in
  let a := in_a inputs in
  let kw := mkKwargs (Some (values a)) in
  let n := Z.to_nat (TAGConv.K self) in
  (n = 0%nat ->
     TAGConv.call_blocks inputs self = Ok ([x], self) /\
     TAGConv.call inputs self =
       match dense_call (TAGConv.linear self) x with
       | Ok (y, d) => Ok (y, TAGConv.set_linear d self)
       | Raise e => Raise e
       end) /\
  (forall e, n <> 0%nat -> propagate x a kw self = Raise e ->
     TAGConv.call inputs self = Raise e) /\
  (forall h s1, propagate x a kw self = Ok (h, s1) ->
     exists sn,
       TAGConv.call_blocks inputs self = Ok (x :: replicate n h, sn) /\
       propagate_log (TAGConv.mp sn) =
         propagate_log (TAGConv.mp self)
         ++ replicate n (mkPropagateCall x a kw) /\
       TAGConv.linear sn = TAGConv.linear self /\
       TAGConv.call inputs self =
         match concatenate (x :: replicate n h) with
         | Ok c =>
             match dense_call (TAGConv.linear self) c with
             | Ok (y, d) => Ok (y, TAGConv.set_linear d sn)
             | Raise e => Raise e
             end
         | Raise e => Raise e
         end).
Proof.
  intros x a kw n. split; [|split].
  - intros Hn. rewrite TAGConv_call_eq, TAGConv_call_blocks_eq. fold n.
    rewrite Hn. split; reflexivity.
  - intros e Hn Hp. rewrite TAGConv_call_eq, TAGConv_call_blocks_eq.
    fold n x a kw. destruct n as [|n']; [done|].
    unfold kw in *. rewrite TAGConv_propagate_eq in Hp.
    destruct (hop_value (agg (TAGConv.mp self)) x a (values a)) as [h|e']
      eqn:Hh; [discriminate|].
    injection Hp as ->. by rewrite (TAGConv_hops_raise _ _ _ _ _ _ _ Hh).
  - intros h s1 Hp. unfold kw in *. rewrite TAGConv_propagate_eq in Hp.
    destruct (hop_value (agg (TAGConv.mp self)) x a (values a)) as [h'|e']
      eqn:Hh; [|discriminate].
    injection Hp as -> _.
    destruct (TAGConv_hops_ok n x a (values a) h self [x] Hh)
      as (sn & Hrun & _ & Hl & _ & _ & Hlog).
    exists sn. rewrite TAGConv_call_eq, TAGConv_call_blocks_eq.
    fold x a n. rewrite Hrun. simpl app. repeat split; try assumption.
    destruct (concatenate (x :: replicate n h)) as [c|e]; [|reflexivity].
    unfold TAGConv.apply_linear. rewrite Hl. reflexivity.
Qed.

(** *** Shapes *)

Lemma dense_call_shape (d d' : Dense R) (x y : Tensor R) :
  dense_call d x = Ok (y, d') ->
  ncols y = units d /\
  Forall (fun r => length r = units d) (rows y) /\
  length (rows y) = length (rows x) /\
  units d' = units d.
Proof.
  unfold dense_call. intros Hd. apply rbind_ok in Hd as (w & _ & Hd).
  injection Hd as <- <-. simpl. repeat split.
  - apply Forall_forall. intros r Hr. apply list_elem_of_fmap in Hr as (v & -> & _).
    unfold dense_row. by rewrite act_shape, length_map, length_seq.
  - apply length_map.
Qed.

Lemma dense_call_total (d : Dense R) (x : Tensor R) :
  match d_weights d with
  | None => True
  | Some w => in_dim w = ncols x
  end ->
  exists y d', dense_call d x = Ok (y, d').
Proof.
  unfold dense_call. destruct (d_weights d) as [w|]; simpl; [|eauto].
  intros Hw. destruct (decide (in_dim w = ncols x)); [|done]. simpl. eauto.
Qed.

Lemma concatenate_replicate (acc h : Tensor R) (n : nat) :
  length (rows h) = length (rows acc) ->
  exists c, concatenate_from acc (replicate n h) = Ok c /\
            ncols c = (ncols acc + n * ncols h)%nat.
Proof.
  revert acc. induction n as [|n IH]; intros acc Hlen; simpl.
  - exists acc. split; [reflexivity | lia].
  - unfold concat2. destruct (decide (length (rows acc) = length (rows h)));
      [|congruence]. simpl.
    destruct (IH (mkTensor (ncols acc + ncols h)
                    (zip_with app (rows acc) (rows h)))) as (c & Hc & Hn).
    { simpl. rewrite length_zip_with. lia. }
    exists c. split; [exact Hc|]. rewrite Hn. simpl. lia.
Qed.

Lemma TAGConv_hops_blocks n x a kw output (self s : TAGConv.t R) blocks :
  TAGConv.hops n x a kw output self = Ok (blocks, s) ->
  exists hs, blocks = output ++ hs /\ length hs = n.
Proof.
  revert output self. induction n as [|n IH]; intros output self; simpl.
  - intros [= <- <-]. exists []. by rewrite app_nil_r.
  - unfold bind. destruct (propagate x a kw self) as [[h s1]|e];
      [|discriminate].
    intros Hrun. destruct (IH _ _ Hrun) as (hs & -> & Hlen).
    exists (h :: hs). rewrite <- app_assoc. simpl. split; [done | lia].
Qed.

(** A successful [call] leaves the layer as it was, apart from the edge
    list, the trace, and the weights of [linear]. *)
Lemma TAGConv_call_ok inputs (self self' : TAGConv.t R) y :
  TAGConv.call inputs self = Ok (y, self') ->
  let x := in_x inputs in
  let a := in_a inputs in
  let n := Z.to_nat (TAGConv.K self) in
  exists blocks c d',
    length blocks = S n /\ blocks !! 0%nat = Some x /\
    concatenate blocks = Ok c /\
    dense_call (TAGConv.linear self) c = Ok (y, d') /\
    TAGConv.linear self' = d' /\
    TAGConv.channels self' = TAGConv.channels self /\
    TAGConv.K self' = TAGConv.K self /\
    propagate_log (TAGConv.mp self') =
      propagate_log (TAGConv.mp self)
      ++ replicate n (mkPropagateCall x a (mkKwargs (Some (values a)))).
Proof.
  intros Hcall x a n. rewrite TAGConv_call_eq, TAGConv_call_blocks_eq in Hcall.
  fold x a n in Hcall.
  assert (Hcases : n = 0%nat \/ (n <> 0%nat /\ exists e,
            hop_value (agg (TAGConv.mp self)) x a (values a) = Raise e)
          \/ exists h, hop_value (agg (TAGConv.mp self)) x a (values a) = Ok h).
  { destruct (hop_value (agg (TAGConv.mp self)) x a (values a)) as [h|e];
      [eauto|]. destruct n; eauto. }
  destruct Hcases as [Hn | [[Hn [e Hh]] | [h Hh]]].
  - rewrite Hn in *. simpl in Hcall. unfold TAGConv.apply_linear in Hcall.
    destruct (dense_call (TAGConv.linear self) x) as [[y' d]|e] eqn:Hd;
      [|discriminate].
    injection Hcall as <- <-. exists [x], x, d. simpl. rewrite app_nil_r.
    repeat split; assumption.
  - destruct n as [|n']; [done|].
    by rewrite (TAGConv_hops_raise _ _ _ _ _ _ _ Hh) in Hcall.
  - destruct (TAGConv_hops_ok n x a (values a) h self [x] Hh)
      as (sn & Hrun & _ & Hl & Hk & Hc & Hlog).
    rewrite Hrun in Hcall. simpl app in Hcall.
    destruct (concatenate (x :: replicate n h)) as [c|e] eqn:Hcat;
      [|discriminate].
    unfold TAGConv.apply_linear in Hcall. rewrite Hl in Hcall.
    destruct (dense_call (TAGConv.linear self) c) as [[y' d]|e] eqn:Hd;
      [|discriminate].
    injection Hcall as <- <-. exists (x :: replicate n h), c, d.
    simpl. rewrite length_replicate. repeat split; try assumption.
Qed.

(** [call] returns on every input whose adjacency has one weight per edge
    and indexes existing nodes, when [linear] is unbuilt or was built for
    the width of the concatenation. *)
Lemma TAGConv_call_total inputs (self : TAGConv.t R) :
  let x := in_x inputs in
  let a := in_a inputs in
  let n := Z.to_nat (TAGConv.K self) in
  indices_in_range a (length (rows x)) = true ->
  length (values a) = length (indices a) ->
  match d_weights (TAGConv.linear self) with
  | None => True
  | Some w => in_dim w = (ncols x + n * ncols x)%nat
  end ->
  exists y self', TAGConv.call inputs self = Ok (y, self').
Proof.
  intros x a n Hin Hw Hlin.
  destruct (hop_value_total (agg (TAGConv.mp self)) x a (values a) Hin Hw)
    as [h Hh].
  destruct (TAGConv_hops_ok n x a (values a) h self [x] Hh)
    as (sn & Hrun & _ & Hl & _).
  destruct (hop_value_shape _ _ _ _ _ Hh) as [Hrows Hcols].
  destruct (concatenate_replicate x h n Hrows) as (c & Hc & Hn).
  rewrite TAGConv_call_eq, TAGConv_call_blocks_eq. fold x a n.
  rewrite Hrun. simpl. rewrite Hc. unfold TAGConv.apply_linear. rewrite Hl.
  destruct (dense_call_total (TAGConv.linear self) c) as (y & d' & Hd).
  { destruct (d_weights (TAGConv.linear self)); [|done]. congruence. }
  rewrite Hd. eauto.
Qed.

End TAGConvCall.

(** ** [TAGConv]: output width, hop-0 block, preprocessing *)

Section TAGConvOutput.
Context {R : Type} `{Scalar R}.

Lemma TAGConv_init_ok (a : TAGConv.Args R) (self : TAGConv.t R) :
  TAGConv.__init__ a = Ok self ->
  TAGConv.K self = TAGConv.arg_K a /\
  TAGConv.channels self = TAGConv.arg_channels a /\
  units (TAGConv.linear self) = Z.to_nat (TAGConv.arg_channels a) /\
  (0 <= TAGConv.arg_channels a)%Z /\
  d_weights (TAGConv.linear self) = None /\
  propagate_log (TAGConv.mp self) = [].
Proof.
  unfold TAGConv.__init__. intros Hi.
  apply rbind_ok in Hi as (super & Hs & Hi).
  apply rbind_ok in Hi as (lin & Hl & Hi). injection Hi as <-. simpl.
  unfold Dense_init in Hl.
  destruct (TAGConv.arg_channels a <? 0)%Z eqn:Hc; [discriminate|].
  injection Hl as <-. simpl. apply Z.ltb_ge in Hc.
  unfold MessagePassing_init in Hs. apply rbind_ok in Hs as (g & _ & Hs).
  injection Hs as <-. simpl. repeat split; assumption.
Qed.

Lemma TAGConv_init_linked (a : TAGConv.Args R) (self : TAGConv.t R) :
  TAGConv.__init__ a = Ok self -> TAGConv_linked self.
Proof.
  intros Hi. destruct (TAGConv_init_ok _ _ Hi) as (_ & Hc & Hu & Hpos & _).
  unfold TAGConv_linked. rewrite Hu, Hc. lia.
Qed.

(** C7: whatever the hop count and the input width, every row of the
    output of [TAGConv.call] has exactly [channels] entries, the output has
    one row per node, and the layer stays tied to [channels]; and [call]
    does return on a well-formed graph. *)
Theorem TAGConv_output_width (self : TAGConv.t R) (inputs : Inputs R) :
  TAGConv_linked self ->
  (forall y self', TAGConv.call inputs self = Ok (y, self') ->
     Z.of_nat (ncols y) = TAGConv.channels self /\
     Forall (fun r => Z.of_nat (length r) = TAGConv.channels self) (rows y) /\
     length (rows y) = length (rows (in_x inputs)) /\
     TAGConv_linked self') /\
  (indices_in_range (in_a inputs) (length (rows (in_x inputs))) = true ->
   length (values (in_a inputs)) = length (indices (in_a inputs)) ->
   d_weights (TAGConv.linear self) = None ->
   exists y self', TAGConv.call inputs self = Ok (y, self')).
Proof.
  intros Hwf. split.
  - intros y self' Hcall.
    destruct (TAGConv_call_ok _ _ _ _ Hcall)
      as (blocks & c & d' & Hlen & Hhd & Hcat & Hd & Hl & Hc & _).
    destruct (dense_call_shape _ _ _ _ Hd) as (Hn & Hrows & Hr & Hu).
    unfold TAGConv_linked in *. repeat split.
    + by rewrite Hn.
    + eapply Forall_impl; [exact Hrows|]. simpl. intros r ->. exact Hwf.
    + rewrite Hr. destruct blocks as [|b bs]; [discriminate|].
      injection Hhd as ->. simpl in Hcat.
      by destruct (concatenate_from_rows _ _ _ Hcat) as (-> & _).
    + by rewrite Hl, Hu, Hc.
  - intros Hin Hw Hfresh. apply TAGConv_call_total; try assumption.
    by rewrite Hfresh.
Qed.

Lemma take_zip_with_app (l rest : list (Vec R)) (width : nat) :
  length rest = length l ->
  Forall (fun r => length r = width) l ->
  map (take width) (zip_with app l rest) = l.
Proof.
  revert rest. induction l as [|r l IH]; intros [|r' rest] Hlen Hall;
    simpl in *; try done.
  apply Forall_cons in Hall as [Hr Hall].
  rewrite take_app_length' by done. f_equal. apply IH; [lia | done].
Qed.

(** C8: the first block of the list that [call] concatenates is the
    input [x] itself, and in the concatenation handed to [self.linear] the
    leading [ncols x] columns of every row are the row of [x]. *)
Theorem TAGConv_hop0_block (self : TAGConv.t R) (inputs : Inputs R) :
  let x := in_x inputs in
  (forall blocks s, TAGConv.call_blocks inputs self = Ok (blocks, s) ->
     blocks !! 0%nat = Some x /\
     length blocks = S (Z.to_nat (TAGConv.K self))) /\
  (forall c s, TAGConv.call_concat inputs self = Ok (c, s) ->
     length (rows c) = length (rows x) /\
     (exists rest, length rest = length (rows x) /\
                   rows c = zip_with app (rows x) rest) /\
     (Forall (fun r => length r = ncols x) (rows x) ->
      map (take (ncols x)) (rows c) = rows x)).
Proof.
  intros x. split.
  - intros blocks s Hb. rewrite TAGConv_call_blocks_eq in Hb.
    destruct (TAGConv_hops_blocks _ _ _ _ _ _ _ _ Hb) as (hs & -> & Hlen).
    simpl. split; [reflexivity | by rewrite Hlen].
  - intros c s Hc. unfold TAGConv.call_concat, bind, lift in Hc.
    destruct (TAGConv.call_blocks inputs self) as [[blocks s0]|e] eqn:Hb;
      [|discriminate].
    rewrite TAGConv_call_blocks_eq in Hb.
    destruct (TAGConv_hops_blocks _ _ _ _ _ _ _ _ Hb) as (hs & -> & Hlen).
    destruct (concatenate ([in_x inputs] ++ hs)) as [c'|e] eqn:Hcat;
      [|discriminate].
    injection Hc as -> ->. simpl in Hcat.
    destruct (concatenate_from_rows _ _ _ Hcat)
      as (Hrows & _ & rest & Hrl & Heq).
    fold x in Hrows, Hrl, Heq. repeat split; [done | eauto |].
    intros Hrect. rewrite Heq. by apply take_zip_with_app.
Qed.

(** C6, as the code has it: [TAGConv.preprocess] is the symmetric degree
    normalization, entry by entry [d_i^-1/2 * a_ij * d_j^-1/2]; [call]
    itself never applies it: a successful call hands the adjacency it
    received, unchanged, to each of its [K] hops. *)
Theorem TAGConv_preprocess_then_hops :
  (forall a : SparseTensor R,
     TAGConv.preprocess a = normalized_adjacency a /\
     indices (TAGConv.preprocess a) = indices a /\
     forall k i j v,
       indices a !! k = Some (i, j) -> values a !! k = Some v ->
       values (TAGConv.preprocess a) !! k =
         Some (smul (smul (inv_sqrt (degree a i)) v) (inv_sqrt (degree a j)))) /\
  (forall (self self' : TAGConv.t R) (inputs : Inputs R) y,
     TAGConv.call inputs self = Ok (y, self') ->
     exists calls,
       propagate_log (TAGConv.mp self') =
         propagate_log (TAGConv.mp self) ++ calls /\
       length calls = Z.to_nat (TAGConv.K self) /\
       Forall (fun c => pc_a c = in_a inputs /\ pc_x c = in_x inputs) calls).
Proof.
  split.
  - intros a. repeat split. intros k i j v Hi Hv.
    unfold TAGConv.preprocess, normalized_adjacency. simpl.
    rewrite lookup_zip_with, Hi. simpl. rewrite Hv. reflexivity.
  - intros self self' inputs y Hcall.
    destruct (TAGConv_call_ok _ _ _ _ Hcall)
      as (_ & _ & _ & _ & _ & _ & _ & _ & _ & _ & Hlog).
    eexists. split; [exact Hlog|]. split; [apply length_replicate|].
    apply Forall_forall. intros c Hc.
    apply elem_of_replicate in Hc as [-> _]. split; reflexivity.
Qed.

End TAGConvOutput.

(** ** [TAGConv]: message, constructor, config *)

Section TAGConvMessage.
Context {R : Type} `{Scalar R}.

Lemma zip_with_lookup_scale (w : Vec R) (rs : list (Vec R)) k wk r :
  w !! k = Some wk -> rs !! k = Some r ->
  zip_with vscale w rs !! k = Some (map (smul wk) r).
Proof. intros Hw Hr. by rewrite lookup_zip_with, Hw; simpl; rewrite Hr. Qed.

(** C5: with one weight per edge, [TAGConv.message] returns one row per
    edge, the feature vector of the edge's source node with every entry
    multiplied by the edge's weight; the layer object is left as it was. *)
Theorem TAGConv_message_scales (self : TAGConv.t R) (x : Tensor R)
    (w : Vec R) (sources : list nat) :
  index_sources (TAGConv.mp self) = Some sources ->
  length w = length sources ->
  Forall (fun j => (j < length (rows x))%nat) sources ->
  exists m,
    TAGConv.message x (mkKwargs (Some w)) self = Ok (m, self) /\
    ncols m = ncols x /\
    length (rows m) = length sources /\
    forall k j x_j w_k,
      sources !! k = Some j -> rows x !! j = Some x_j -> w !! k = Some w_k ->
      rows m !! k = Some (map (smul w_k) x_j).
Proof.
  intros Hsrc Hw Hin. destruct (gather_total x sources Hin) as [g Hg].
  destruct (gather_ok _ _ _ Hg) as (Hc & Hlen & Hrows).
  exists (mkTensor (ncols g) (zip_with vscale w (rows g))).
  destruct self as [b c k l]. simpl in Hsrc.
  unfold TAGConv.message, get_sources. unfold_layer. cbn.
  rewrite Hsrc. cbn. rewrite Hg. cbn. unfold scale_rows.
  destruct (decide (length w = length (rows g))); [|congruence]. cbn.
  repeat split; [done | rewrite length_zip_with; lia |].
  intros i j x_j w_k Hi Hj Hk. destruct (Hrows i j Hi) as (r & Hr & Hgr).
  rewrite Hj in Hr. injection Hr as <-.
  by apply zip_with_lookup_scale.
Qed.

(** The only exception of the check of the aggregation mode. *)
Lemma deserialize_aggregate_raise (name : string) (e : exn) :
  deserialize_aggregate name = Raise e -> e = ConfigurationError.
Proof.
  unfold deserialize_aggregate.
  repeat (destruct (decide _); [discriminate|]). by intros [= <-].
Qed.

(** C3, with the hop count as the code has it: a constructor call with an
    invalid (negative) channel count fails with [ConfigurationError] at
    construction time, whatever the other arguments are; no layer object
    exists and no tensor has been touched.  The hop count is not checked:
    with a supported aggregation mode and a valid channel count the
    constructor returns for every [K], zero and negative values included,
    and stores it as given; with [K <= 0] the loop of [call] makes no
    [propagate] call and the block list is [[x]]. *)
Theorem TAGConv_init_checks (a : TAGConv.Args R) :
  ((TAGConv.arg_channels a < 0)%Z ->
     TAGConv.__init__ a = Raise ConfigurationError) /\
  (forall g, deserialize_aggregate (TAGConv.arg_aggregate a) = Ok g ->
     (0 <= TAGConv.arg_channels a)%Z ->
     exists self,
       TAGConv.__init__ a = Ok self /\
       TAGConv.K self = TAGConv.arg_K a /\
       TAGConv.channels self = TAGConv.arg_channels a /\
       agg (TAGConv.mp self) = g /\
       propagate_log (TAGConv.mp self) = []) /\
  (forall self inputs,
     TAGConv.__init__ a = Ok self -> (TAGConv.arg_K a <= 0)%Z ->
     TAGConv.call_blocks inputs self = Ok ([in_x inputs], self)).
Proof.
  unfold TAGConv.__init__, MessagePassing_init, Dense_init.
  destruct (deserialize_aggregate (TAGConv.arg_aggregate a)) as [g|e] eqn:Hg;
    simpl.
  - destruct (TAGConv.arg_channels a <? 0)%Z eqn:Hc; simpl.
    + apply Z.ltb_lt in Hc. split; [reflexivity|]. split.
      * intros g' _ Hpos. lia.
      * intros self inputs. discriminate.
    + apply Z.ltb_ge in Hc. split; [lia|]. split.
      * intros g' [= <-] _. eexists. repeat split.
      * intros self inputs [= <-] Hk. rewrite TAGConv_call_blocks_eq. simpl.
        replace (Z.to_nat (TAGConv.arg_K a)) with 0%nat by lia. reflexivity.
  - apply deserialize_aggregate_raise in Hg as ->. split; [reflexivity|]. split.
    + intros g. discriminate.
    + intros self inputs. discriminate.
Qed.

(** C10: [config] is the one-entry mapping [{"channels": channels}]; it
    has no entry for the hop count, layers that differ only in [K] have the
    same [config], and no function recovers [K] from it. *)
Theorem TAGConv_config_omits_K :
  (forall self : TAGConv.t R,
     TAGConv.config self = {[ "channels" := VInt (TAGConv.channels self) ]} /\
     dom (TAGConv.config self) = ({[ "channels" ]} : gset string) /\
     TAGConv.config self !! "K" = None) /\
  (forall (self : TAGConv.t R) (k : Z),
     TAGConv.config
       (TAGConv.mk (TAGConv.mp self) (TAGConv.channels self) k
          (TAGConv.linear self))
     = TAGConv.config self) /\
  (forall self : TAGConv.t R,
     ~ exists recover : gmap string (ConfigValue R) -> Z,
         forall k, recover (TAGConv.config
                     (TAGConv.mk (TAGConv.mp self) (TAGConv.channels self) k
                        (TAGConv.linear self))) = k).
Proof.
  split; [|split].
  - intros self. unfold TAGConv.config. split; [reflexivity|]. split.
    + apply dom_singleton_L.
    + by apply lookup_singleton_ne.
  - reflexivity.
  - intros self [recover Hrec].
    pose proof (Hrec 1%Z) as H1. pose proof (Hrec 2%Z) as H2.
    unfold TAGConv.config in H1, H2. simpl in H1, H2. congruence.
Qed.

End TAGConvMessage.

(** ** [EdgeConv]: the MLP on the edges *)

Section EdgeConvFacts.
Context {R : Type} `{Scalar R}.

Lemma dense_call_rows (d d' : Dense R) (x y : Tensor R) :
  dense_call d x = Ok (y, d') ->
  built_from d d' /\ ncols y = units d /\
  rows y = map (mlp_row [d']) (rows x).
Proof.
  unfold dense_call. intros Hd. apply rbind_ok in Hd as (w & Hw & Hd).
  injection Hd as <- <-. simpl. repeat split.
  exists w. split; [reflexivity|]. intros w0 Hw0. rewrite Hw0 in Hw.
  destruct (decide (in_dim w0 = ncols x)); congruence.
Qed.

Lemma sequential_call_rows (layers layers' : list (Dense R)) (x y : Tensor R) :
  sequential_call layers x = Ok (y, layers') ->
  Forall2 built_from layers layers' /\
  rows y = map (mlp_row layers') (rows x).
Proof.
  revert x layers'. induction layers as [|d ds IH]; intros x layers' Hs;
    simpl in Hs.
  - injection Hs as <- <-. split; [constructor|]. by rewrite map_id.
  - apply rbind_ok in Hs as ([y1 d'] & Hd & Hs).
    apply rbind_ok in Hs as ([z ds'] & Hds & Hs). injection Hs as <- <-.
    destruct (dense_call_rows _ _ _ _ Hd) as (Hb & _ & Hy1).
    destruct (IH _ _ Hds) as [Hbs Hz]. split; [by constructor|].
    rewrite Hz, Hy1, map_map. apply map_ext. intros r.
    destruct Hb as (w & -> & _). reflexivity.
Qed.

Lemma sequential_call_total (layers : list (Dense R)) (x : Tensor R) :
  mlp_accepts layers (ncols x) ->
  exists y layers', sequential_call layers x = Ok (y, layers').
Proof.
  revert x. induction layers as [|d ds IH]; intros x Hacc; simpl; [eauto|].
  destruct Hacc as [Hd Hds].
  destruct (dense_call_total d x Hd) as (y & d' & Hcall). rewrite Hcall.
  simpl. destruct (dense_call_rows _ _ _ _ Hcall) as (_ & Hn & _).
  destruct (IH y) as (z & ds' & Hz); [by rewrite Hn|].
  rewrite Hz. simpl. eauto.
Qed.

Lemma zip_with_app_vsub (x_i x_j : list (Vec R)) :
  zip_with app x_i (zip_with vsub x_j x_i) = edge_rows x_i x_j.
Proof.
  unfold edge_rows. revert x_j.
  induction x_i as [|u x_i IH]; intros [|v x_j]; simpl; try done.
  by rewrite IH.
Qed.

(** [message] on a built layer whose current edge list indexes rows of
    [x]: it returns, and its rows are the MLP's rows on [edge_rows]. *)
Lemma EdgeConv_message_rows (self : EdgeConv.t R) (x : Tensor R)
    (kw : Kwargs R) (targets sources : list nat) (layers : list (Dense R)) :
  index_targets (EdgeConv.mp self) = Some targets ->
  index_sources (EdgeConv.mp self) = Some sources ->
  length targets = length sources ->
  EdgeConv.mlp self = Some layers ->
  Forall (fun i => (i < length (rows x))%nat) targets ->
  Forall (fun j => (j < length (rows x))%nat) sources ->
  mlp_accepts layers (ncols x + ncols x) ->
  exists y layers' x_i x_j,
    EdgeConv.message x kw self = Ok (y, EdgeConv.set_mlp layers' self) /\
    gather x targets = Ok x_i /\ gather x sources = Ok x_j /\
    Forall2 built_from layers layers' /\
    rows y = map (mlp_row layers') (edge_rows (rows x_i) (rows x_j)).
Proof.
  intros Htg Hsr Hlen Hmlp Hti Hsi Hacc.
  destruct (gather_total x targets Hti) as [x_i Hgi].
  destruct (gather_total x sources Hsi) as [x_j Hgj].
  destruct (gather_ok _ _ _ Hgi) as (Hci & Hli & _).
  destruct (gather_ok _ _ _ Hgj) as (Hcj & Hlj & _).
  pose (c := mkTensor (ncols x_i + ncols x_j)
               (edge_rows (rows x_i) (rows x_j))).
  destruct (sequential_call_total layers c) as (y & layers' & Hseq).
  { simpl. by rewrite Hci, Hcj. }
  destruct (sequential_call_rows _ _ _ _ Hseq) as [Hb Hrows].
  exists y, layers', x_i, x_j. repeat split; try assumption.
  destruct self as [b ch hid act m]. simpl in Htg, Hsr, Hmlp. subst m.
  unfold EdgeConv.message, get_targets, get_sources. unfold_layer. cbn.
  rewrite Htg. cbn. rewrite Hgi. cbn. rewrite Hsr. cbn. rewrite Hgj. cbn.
  unfold tsub.
  destruct (decide (ncols x_j = ncols x_i
                    /\ length (rows x_j) = length (rows x_i))) as [_|Hne];
    [|exfalso; apply Hne; split; congruence].
  cbn. unfold concat2. cbn. rewrite length_zip_with.
  destruct (decide (length (rows x_i)
                    = (length (rows x_j) `min` length (rows x_i))%nat))
    as [_|Hne]; [|exfalso; apply Hne; lia].
  cbn. rewrite zip_with_app_vsub. unfold EdgeConv.apply_mlp.
  fold c. rewrite Hseq. reflexivity.
Qed.

Lemma edge_rows_lookup (x : Tensor R) (x_i x_j : Tensor R)
    (targets sources : list nat) k i j r_i r_j :
  gather x targets = Ok x_i -> gather x sources = Ok x_j ->
  targets !! k = Some i -> sources !! k = Some j ->
  rows x !! i = Some r_i -> rows x !! j = Some r_j ->
  edge_rows (rows x_i) (rows x_j) !! k = Some (r_i ++ vsub r_j r_i).
Proof.
  intros Hgi Hgj Hk Hk' Hi Hj.
  destruct (gather_ok _ _ _ Hgi) as (_ & _ & Hri).
  destruct (gather_ok _ _ _ Hgj) as (_ & _ & Hrj).
  destruct (Hri k i Hk) as (r & Hr & Hkr). rewrite Hi in Hr.
  injection Hr as <-.
  destruct (Hrj k j Hk') as (r & Hr & Hkr'). rewrite Hj in Hr.
  injection Hr as <-.
  unfold edge_rows. rewrite lookup_zip_with, Hkr. simpl. by rewrite Hkr'.
Qed.

End EdgeConvFacts.

(** ** [EdgeConv]: message and build *)

Section EdgeConvMessage.
Context {R : Type} `{Scalar R}.

(** C2: on a built layer, [EdgeConv.message] returns one row per edge, and
    the row of edge [k], from source [j] to target [i], is the MLP applied
    to [x_i] followed by [x_j - x_i]. *)
Theorem EdgeConv_message_mlp (self : EdgeConv.t R) (x : Tensor R)
    (kw : Kwargs R) (targets sources : list nat) (layers : list (Dense R)) :
  index_targets (EdgeConv.mp self) = Some targets ->
  index_sources (EdgeConv.mp self) = Some sources ->
  length targets = length sources ->
  EdgeConv.mlp self = Some layers ->
  Forall (fun i => (i < length (rows x))%nat) targets ->
  Forall (fun j => (j < length (rows x))%nat) sources ->
  mlp_accepts layers (ncols x + ncols x) ->
  exists y layers',
    EdgeConv.message x kw self = Ok (y, EdgeConv.set_mlp layers' self) /\
    Forall2 built_from layers layers' /\
    length (rows y) = length targets /\
    forall k i j x_i x_j,
      targets !! k = Some i -> sources !! k = Some j ->
      rows x !! i = Some x_i -> rows x !! j = Some x_j ->
      rows y !! k = Some (mlp_row layers' (x_i ++ vsub x_j x_i)).
Proof.
  intros Htg Hsr Hlen Hmlp Hti Hsi Hacc.
  destruct (EdgeConv_message_rows self x kw _ _ _ Htg Hsr Hlen Hmlp Hti Hsi Hacc)
    as (y & layers' & g_i & g_j & Hmsg & Hgi & Hgj & Hb & Hrows).
  exists y, layers'. repeat split; try assumption.
  - rewrite Hrows, length_map. unfold edge_rows. rewrite length_zip_with.
    destruct (gather_ok _ _ _ Hgi) as (_ & -> & _).
    destruct (gather_ok _ _ _ Hgj) as (_ & -> & _). lia.
  - intros k i j x_i x_j Hk Hk' Hi Hj. rewrite Hrows, list_lookup_fmap.
    by rewrite (edge_rows_lookup _ _ _ _ _ _ _ _ _ _ Hgi Hgj Hk Hk' Hi Hj).
Qed.

(** C9: [EdgeConv.build] creates one hidden [Dense] layer per entry of
    [mlp_hidden], each with a bias whatever the layer's [use_bias] is, and
    a last layer of [channels] units that takes the layer's [use_bias]. *)
Theorem EdgeConv_build_bias (self : EdgeConv.t R) (input_shape : list nat) :
  (forall self', EdgeConv.build input_shape self = Ok (tt, self') ->
     exists hidden final,
       EdgeConv.mlp self' = Some (hidden ++ [final]) /\
       Forall2 (fun c d => units d = Z.to_nat c /\
                           d_use_bias d = true /\
                           d_activation d = EdgeConv.mlp_activation self /\
                           d_weights d = None)
               (EdgeConv.mlp_hidden self) hidden /\
       units final = Z.to_nat (EdgeConv.channels self) /\
       d_use_bias final = use_bias (EdgeConv.mp self) /\
       d_activation final = activation (EdgeConv.mp self) /\
       d_weights final = None /\
       use_bias (EdgeConv.mp self') = use_bias (EdgeConv.mp self)) /\
  ((2 <= length input_shape)%nat ->
   Forall (fun c => (0 <= c)%Z) (EdgeConv.mlp_hidden self) ->
   (0 <= EdgeConv.channels self)%Z ->
   exists self', EdgeConv.build input_shape self = Ok (tt, self')).
Proof.
  unfold EdgeConv.build.
  destruct (decide (2 <= length input_shape)%nat) as [Hshape|Hshape].
  2:{ split; [intros self'; discriminate | intros; lia]. }
  unfold_layer. cbn.
  set (mk_hidden := fun c : Z =>
         Dense_init c (Some (EdgeConv.mlp_activation self)) None
           (kwargs (EdgeConv.mp self)) None
           (Some (dtype (EdgeConv.mp self)))).
  assert (Hhid : forall hs hidden, rmapM mk_hidden hs = Ok hidden ->
            Forall2 (fun c d => units d = Z.to_nat c /\
                                d_use_bias d = true /\
                                d_activation d = EdgeConv.mlp_activation self /\
                                d_weights d = None) hs hidden).
  { induction hs as [|c hs IH]; intros hidden Hm; simpl in Hm.
    - injection Hm as <-. constructor.
    - apply rbind_ok in Hm as (d & Hd & Hm).
      apply rbind_ok in Hm as (ds & Hds & Hm). injection Hm as <-.
      constructor; [|by apply IH].
      unfold mk_hidden, Dense_init in Hd. destruct (c <? 0)%Z; [discriminate|].
      injection Hd as <-. repeat split. }
  split.
  - intros self'.
    destruct (rmapM mk_hidden (EdgeConv.mlp_hidden self)) as [hidden|e]
      eqn:Hm; cbn; [|discriminate].
    unfold Dense_init.
    destruct (EdgeConv.channels self <? 0)%Z; cbn; [discriminate|].
    intros [= <-]. eexists hidden, _. split; [reflexivity|].
    split; [by apply Hhid|]. repeat split.
  - intros _ Hpos Hch.
    destruct (rmapM_total mk_hidden (EdgeConv.mlp_hidden self)) as [hidden Hm].
    { eapply Forall_impl; [exact Hpos|]. intros c Hc. simpl in Hc.
      unfold mk_hidden, Dense_init.
      destruct (c <? 0)%Z eqn:Hlt; [apply Z.ltb_lt in Hlt; lia | eauto]. }
    rewrite Hm. cbn. unfold Dense_init.
    destruct (EdgeConv.channels self <? 0)%Z eqn:Hlt;
      [apply Z.ltb_lt in Hlt; lia|].
    cbn. eauto.
Qed.

End EdgeConvMessage.

(** ** [EdgeConv] on a self-loop, in IEEE-754 arithmetic *)

Section EdgeConvSelfLoop.
Variables prec emax : Z.

#[local] Instance float_scalar : Scalar spec_float :=
  Float.of_format prec emax.

Lemma SFsub_diag (f : spec_float) :
  Float.is_finite f = true -> SFsub prec emax f f = S754_zero false.
Proof.
  destruct f as [s| | |s m e]; simpl; try discriminate; intros _.
  - by destruct s.
  - by rewrite Z.sub_diag.
Qed.

Lemma vsub_diag (v : Vec spec_float) :
  Forall (fun f => Float.is_finite f = true) v ->
  vsub v v = zeros (length v).
Proof.
  induction 1 as [|f v Hf _ IH]; [reflexivity|].
  unfold vsub, zeros in *. simpl. f_equal; [by apply SFsub_diag | exact IH].
Qed.

(** C4, as the code has it: on a self-loop the message is the MLP of
    [x_i] followed by [x_i - x_i], a function of [x_i] alone; when every
    entry of [x_i] is finite the difference is the zero vector and the
    message is [MLP(x_i || 0)]. *)
Theorem EdgeConv_self_loop_message (self : EdgeConv.t spec_float)
    (x : Tensor spec_float) (kw : Kwargs spec_float)
    (targets sources : list nat) (layers : list (Dense spec_float)) :
  index_targets (EdgeConv.mp self) = Some targets ->
  index_sources (EdgeConv.mp self) = Some sources ->
  length targets = length sources ->
  EdgeConv.mlp self = Some layers ->
  Forall (fun i => (i < length (rows x))%nat) targets ->
  Forall (fun j => (j < length (rows x))%nat) sources ->
  mlp_accepts layers (ncols x + ncols x) ->
  exists y layers',
    EdgeConv.message x kw self = Ok (y, EdgeConv.set_mlp layers' self) /\
    forall k i x_i,
      targets !! k = Some i -> sources !! k = Some i ->
      rows x !! i = Some x_i ->
      rows y !! k = Some (mlp_row layers' (x_i ++ vsub x_i x_i)) /\
      (Forall (fun f => Float.is_finite f = true) x_i ->
       rows y !! k = Some (mlp_row layers' (x_i ++ zeros (length x_i)))).
Proof.
  intros Htg Hsr Hlen Hmlp Hti Hsi Hacc.
  destruct (EdgeConv_message_rows self x kw _ _ _ Htg Hsr Hlen Hmlp Hti Hsi Hacc)
    as (y & layers' & g_i & g_j & Hmsg & Hgi & Hgj & _ & Hrows).
  exists y, layers'. split; [assumption|].
  intros k i x_i Hk Hk' Hi.
  assert (Hrow : rows y !! k = Some (mlp_row layers' (x_i ++ vsub x_i x_i))).
  { rewrite Hrows, list_lookup_fmap.
    by rewrite (edge_rows_lookup _ _ _ _ _ _ _ _ _ _ Hgi Hgj Hk Hk' Hi Hi). }
  split; [exact Hrow|]. intros Hfin. by rewrite Hrow, vsub_diag.
Qed.

End EdgeConvSelfLoop.

(** * Further properties *)

(** ** Built [Dense] layers *)

Section DenseFacts.
Context {R : Type} `{Scalar R}.

(** A layer that has been called once accepts the same input again, gives
    the same output and does not change. *)
Lemma dense_call_again (d d' : Dense R) (x y : Tensor R) :
  dense_call d x = Ok (y, d') -> dense_call d' x = Ok (y, d').
Proof.
  unfold dense_call. intros Hd. apply rbind_ok in Hd as (w & Hw & Hd).
  injection Hd as <- <-. simpl.
  assert (Hin : in_dim w = ncols x).
  { destruct (d_weights d) as [w0|].
    - destruct (decide (in_dim w0 = ncols x)); [|discriminate].
      by injection Hw as <-.
    - by injection Hw as <-. }
  destruct (decide (in_dim w = ncols x)); [|done]. reflexivity.
Qed.

Lemma dense_call_weights (d d' : Dense R) (x y : Tensor R) :
  dense_call d x = Ok (y, d') ->
  exists w, d' = set_weights d w /\ in_dim w = ncols x /\
            (d_weights d = None -> w = dense_build d (ncols x)) /\
            rows y = map (dense_row d w) (rows x).
Proof.
  unfold dense_call. intros Hd. apply rbind_ok in Hd as (w & Hw & Hd).
  injection Hd as <- <-. exists w. split; [reflexivity|].
  destruct (d_weights d) as [w0|].
  - destruct (decide (in_dim w0 = ncols x)); [|discriminate].
    injection Hw as <-. repeat split; [done | discriminate].
  - injection Hw as <-. repeat split.
Qed.

Lemma sequential_call_again (layers layers' : list (Dense R))
    (x y : Tensor R) :
  sequential_call layers x = Ok (y, layers') ->
  sequential_call layers' x = Ok (y, layers').
Proof.
  revert x layers'. induction layers as [|d ds IH]; intros x layers' Hs;
    simpl in Hs.
  - by injection Hs as <- <-.
  - apply rbind_ok in Hs as ([y1 d'] & Hd & Hs).
    apply rbind_ok in Hs as ([z ds'] & Hds & Hs). injection Hs as <- <-.
    simpl. rewrite (dense_call_again _ _ _ _ Hd). simpl.
    by rewrite (IH _ _ Hds).
Qed.

Lemma sequential_call_last (hidden : list (Dense R)) (final : Dense R)
    (layers' : list (Dense R)) (x y : Tensor R) :
  sequential_call (hidden ++ [final]) x = Ok (y, layers') ->
  ncols y = units final /\
  Forall (fun r => length r = units final) (rows y) /\
  length (rows y) = length (rows x) /\
  exists hidden' final',
    layers' = hidden' ++ [final'] /\ units final' = units final.
Proof.
  revert x layers'. induction hidden as [|d ds IH]; intros x layers' Hs;
    simpl in Hs.
  - apply rbind_ok in Hs as ([y1 d'] & Hd & Hs). injection Hs as <- <-.
    destruct (dense_call_shape _ _ _ _ Hd) as (Hn & Hrows & Hlen & Hu).
    repeat split; try assumption. by exists [], d'.
  - apply rbind_ok in Hs as ([y1 d'] & Hd & Hs).
    apply rbind_ok in Hs as ([z ds'] & Hds & Hs). injection Hs as <- <-.
    destruct (IH _ _ Hds) as (Hn & Hrows & Hlen & hidden' & final' & -> & Hu).
    destruct (dense_call_shape _ _ _ _ Hd) as (_ & _ & Hlen1 & _).
    repeat split; try assumption; [congruence|].
    by exists (d' :: hidden'), final'.
Qed.

End DenseFacts.

(** ** [EdgeConv]: constructor, build, message *)

Section EdgeConvMore.
Context {R : Type} `{Scalar R} {builtins : Activations R}.

(** What a successful [message] has done. *)
Lemma EdgeConv_message_inv (self self' : EdgeConv.t R) (x y : Tensor R)
    (kw : Kwargs R) :
  EdgeConv.message x kw self = Ok (y, self') ->
  exists targets sources x_i x_j layers layers',
    index_targets (EdgeConv.mp self) = Some targets /\
    index_sources (EdgeConv.mp self) = Some sources /\
    gather x targets = Ok x_i /\ gather x sources = Ok x_j /\
    length (rows x_j) = length (rows x_i) /\
    EdgeConv.mlp self = Some layers /\
    sequential_call layers
      (mkTensor (ncols x_i + ncols x_j) (edge_rows (rows x_i) (rows x_j)))
      = Ok (y, layers') /\
    self' = EdgeConv.set_mlp layers' self.
Proof.
  destruct self as [b ch hid act m].
  unfold EdgeConv.message, get_targets, get_sources. unfold_layer. cbn.
  destruct (index_targets b) as [tg|] eqn:Htg; cbn; [|discriminate].
  destruct (gather x tg) as [x_i|e] eqn:Hgi; cbn; [|discriminate].
  destruct (index_sources b) as [sr|] eqn:Hsr; cbn; [|discriminate].
  destruct (gather x sr) as [x_j|e] eqn:Hgj; cbn; [|discriminate].
  destruct m as [layers|]; cbn; [|discriminate].
  unfold tsub.
  destruct (decide (ncols x_j = ncols x_i
                    /\ length (rows x_j) = length (rows x_i))) as [[Hc Hl]|];
    cbn; [|discriminate].
  unfold concat2. cbn. rewrite length_zip_with.
  destruct (decide (length (rows x_i)
                    = (length (rows x_j) `min` length (rows x_i))%nat))
    as [_|]; cbn; [|discriminate].
  rewrite zip_with_app_vsub. unfold EdgeConv.apply_mlp.
  destruct (sequential_call layers _) as [[y' layers']|e'] eqn:Hseq;
    [|discriminate].
  intros [= <- <-]. exists tg, sr, x_i, x_j, layers, layers'.
  repeat split; assumption.
Qed.

(** What makes [message] return. *)
Lemma EdgeConv_message_intro (self : EdgeConv.t R) (x y x_i x_j : Tensor R)
    (kw : Kwargs R) (targets sources : list nat)
    (layers layers' : list (Dense R)) :
  index_targets (EdgeConv.mp self) = Some targets ->
  index_sources (EdgeConv.mp self) = Some sources ->
  gather x targets = Ok x_i -> gather x sources = Ok x_j ->
  length (rows x_j) = length (rows x_i) ->
  EdgeConv.mlp self = Some layers ->
  sequential_call layers
    (mkTensor (ncols x_i + ncols x_j) (edge_rows (rows x_i) (rows x_j)))
    = Ok (y, layers') ->
  EdgeConv.message x kw self = Ok (y, EdgeConv.set_mlp layers' self).
Proof.
  intros Htg Hsr Hgi Hgj Hlen Hmlp Hseq.
  destruct (gather_ok _ _ _ Hgi) as (Hci & _).
  destruct (gather_ok _ _ _ Hgj) as (Hcj & _).
  destruct self as [b ch hid act m]. simpl in Htg, Hsr, Hmlp. subst m.
  unfold EdgeConv.message, get_targets, get_sources. unfold_layer. cbn.
  rewrite Htg. cbn. rewrite Hgi. cbn. rewrite Hsr. cbn. rewrite Hgj. cbn.
  unfold tsub.
  destruct (decide (ncols x_j = ncols x_i
                    /\ length (rows x_j) = length (rows x_i))) as [_|Hne];
    [|exfalso; apply Hne; split; congruence].
  cbn. unfold concat2. cbn. rewrite length_zip_with.
  destruct (decide (length (rows x_i)
                    = (length (rows x_j) `min` length (rows x_i))%nat))
    as [_|Hne]; [|exfalso; apply Hne; lia].
  cbn. rewrite zip_with_app_vsub. unfold EdgeConv.apply_mlp.
  rewrite Hseq. reflexivity.
Qed.

(** The outcome of constructing the hidden layers. *)
Lemma rmapM_Dense_init (act : option (Activation R)) (ub : option bool)
    (kw : LayerKwargs R) (ar dt : option string) (cs : list Z) :
  (exists ds, rmapM (fun c => Dense_init c act ub kw ar dt) cs = Ok ds /\
              Forall (fun c => (0 <= c)%Z) cs /\
              length ds = length cs) \/
  (rmapM (fun c => Dense_init c act ub kw ar dt) cs = Raise ValueError /\
   Exists (fun c => (c < 0)%Z) cs).
Proof.
  induction cs as [|c cs IH]; simpl.
  - left. exists []. repeat split. constructor.
  - destruct (Dense_init c act ub kw ar dt) as [d|e] eqn:Hd;
      unfold Dense_init in Hd; destruct (c <? 0)%Z eqn:Hc;
      try discriminate; simpl.
    + apply Z.ltb_ge in Hc. destruct IH as [(ds & -> & Hall & Hlen)|[-> Hex]];
        simpl.
      * left. eexists. repeat split; [by constructor | simpl; by rewrite Hlen].
      * right. split; [reflexivity | by apply Exists_cons_tl].
    + injection Hd as <-. right. split; [reflexivity|].
      apply Exists_cons_hd. by apply Z.ltb_lt.
Qed.

(** The three outcomes of [build]. *)
Lemma EdgeConv_build_cases (self : EdgeConv.t R) (input_shape : list nat) :
  ((length input_shape < 2)%nat /\
   EdgeConv.build input_shape self = Raise AssertionError) \/
  ((2 <= length input_shape)%nat /\
   Exists (fun c => (c < 0)%Z)
          (EdgeConv.mlp_hidden self ++ [EdgeConv.channels self]) /\
   EdgeConv.build input_shape self = Raise ValueError) \/
  ((2 <= length input_shape)%nat /\
   Forall (fun c => (0 <= c)%Z)
          (EdgeConv.mlp_hidden self ++ [EdgeConv.channels self]) /\
   exists self', EdgeConv.build input_shape self = Ok (tt, self')).
Proof.
  unfold EdgeConv.build.
  destruct (decide (2 <= length input_shape)%nat) as [Hshape|Hshape].
  2:{ left. split; [lia | reflexivity]. }
  right. unfold_layer. cbn.
  destruct (rmapM_Dense_init (Some (EdgeConv.mlp_activation self)) None
              (kwargs (EdgeConv.mp self)) None
              (Some (dtype (EdgeConv.mp self))) (EdgeConv.mlp_hidden self))
    as [(ds & -> & Hall & _)|[-> Hex]]; cbn.
  - unfold Dense_init.
    destruct (EdgeConv.channels self <? 0)%Z eqn:Hc; cbn.
    + apply Z.ltb_lt in Hc. left. repeat split; [done|].
      apply Exists_app. right. by apply Exists_cons_hd.
    + apply Z.ltb_ge in Hc. right. split; [done|]. split; [|eauto].
      apply Forall_app. split; [exact Hall|]. by repeat constructor.
  - left. repeat split; [done|]. apply Exists_app. by left.
Qed.

Lemma Forall_nonneg_not_Exists_neg (cs : list Z) :
  Forall (fun c => (0 <= c)%Z) cs -> Exists (fun c => (c < 0)%Z) cs -> False.
Proof.
  intros Hall Hex. apply Exists_exists in Hex as (c & Hin & Hneg).
  rewrite Forall_forall in Hall. specialize (Hall c Hin). lia.
Qed.

(** [activations.get] raises exactly on an unknown name. *)
Lemma activations_get_identifier_cases (identifier : Identifier R) :
  (exists f, activations_get_identifier identifier = Ok f /\
             match identifier with
             | IdNone => f = linear_activation
             | IdName name => activation_named name = Some f
             | IdCallable f' => f = f'
             end) \/
  (activations_get_identifier identifier = Raise ValueError /\
   exists name, identifier = IdName name /\ activation_named name = None).
Proof.
  destruct identifier as [|name|f]; simpl.
  - left. by exists linear_activation.
  - unfold activations_deserialize.
    destruct (activation_named name) as [f|] eqn:Hn.
    + left. by exists f.
    + right. split; [reflexivity|]. by exists name.
  - left. by exists f.
Qed.

(** X1: the constructor of [EdgeConv] first runs the base-class
    constructor and raises what that raises; after it has returned, line 86
    can still raise: [activations.get] rejects an [mlp_activation] that is
    an unknown name with [ValueError], and these are the only two failures.
    Otherwise the constructor returns the object of the base class with
    three more attributes: [channels] and the hidden widths unchecked
    (negative values included) and the resolved activation ([None] is
    linear, a callable is kept, a name is looked up); it leaves [mlp] unset
    and treats [mlp_hidden=None] and [mlp_hidden=[]] alike.  A negative
    width is rejected only later, by [build]. *)
Theorem EdgeConv_init_stores (a : EdgeConv.Args R) :
  let super_init :=
    MessagePassing_init (EdgeConv.arg_aggregate a) (EdgeConv.arg_activation a)
      (EdgeConv.arg_use_bias a) (EdgeConv.arg_kwargs a)
      (EdgeConv.arg_activity_regularizer a) in
  (forall e, super_init = Raise e -> EdgeConv.__init__ a = Raise e) /\
  (forall super name, super_init = Ok super ->
     EdgeConv.arg_mlp_activation a = IdName name ->
     activation_named name = None ->
     EdgeConv.__init__ a = Raise ValueError) /\
  (forall e, EdgeConv.__init__ a = Raise e ->
     super_init = Raise e \/
     ((exists super, super_init = Ok super) /\ e = ValueError /\
      exists name, EdgeConv.arg_mlp_activation a = IdName name /\
                   activation_named name = None)) /\
  (forall super f, super_init = Ok super ->
     match EdgeConv.arg_mlp_activation a with
     | IdNone => f = linear_activation
     | IdName name => activation_named name = Some f
     | IdCallable f' => f = f'
     end ->
     exists self,
       EdgeConv.__init__ a = Ok self /\
       EdgeConv.mp self = super /\
       EdgeConv.channels self = EdgeConv.arg_channels a /\
       EdgeConv.mlp_hidden self = default [] (EdgeConv.arg_mlp_hidden a) /\
       EdgeConv.mlp_activation self = f /\
       EdgeConv.mlp self = None) /\
  EdgeConv.__init__
    (EdgeConv.mkArgs (EdgeConv.arg_channels a) None
       (EdgeConv.arg_mlp_activation a) (EdgeConv.arg_aggregate a)
       (EdgeConv.arg_activation a) (EdgeConv.arg_use_bias a)
       (EdgeConv.arg_kwargs a) (EdgeConv.arg_activity_regularizer a))
  = EdgeConv.__init__
      (EdgeConv.mkArgs (EdgeConv.arg_channels a) (Some [])
         (EdgeConv.arg_mlp_activation a) (EdgeConv.arg_aggregate a)
         (EdgeConv.arg_activation a) (EdgeConv.arg_use_bias a)
         (EdgeConv.arg_kwargs a) (EdgeConv.arg_activity_regularizer a)) /\
  (forall self input_shape,
     EdgeConv.__init__ a = Ok self ->
     (2 <= length input_shape)%nat ->
     Exists (fun c => (c < 0)%Z)
            (default [] (EdgeConv.arg_mlp_hidden a)
             ++ [EdgeConv.arg_channels a]) ->
     EdgeConv.build input_shape self = Raise ValueError).
Proof.
  intros super_init. split; [|split; [|split; [|split; [|split]]]].
  - unfold EdgeConv.__init__. fold super_init. intros e ->. reflexivity.
  - unfold EdgeConv.__init__. fold super_init. intros super name -> -> Hn.
    simpl. unfold activations_deserialize. by rewrite Hn.
  - intros e. unfold EdgeConv.__init__. fold super_init.
    destruct super_init as [super|e0]; simpl.
    + destruct (activations_get_identifier_cases
                  (EdgeConv.arg_mlp_activation a))
        as [(f & -> & _)|[-> Hname]]; simpl.
      * discriminate.
      * intros [= <-]. right. split; [by exists super|].
        split; [reflexivity | exact Hname].
    + intros [= <-]. by left.
  - unfold EdgeConv.__init__. fold super_init. intros super f -> Hf. simpl.
    assert (Hget : activations_get_identifier (EdgeConv.arg_mlp_activation a)
                   = Ok f).
    { destruct (EdgeConv.arg_mlp_activation a) as [|name|f']; simpl in *;
        [by subst | unfold activations_deserialize; by rewrite Hf | by subst]. }
    rewrite Hget. simpl. eexists. split; [reflexivity|]. simpl.
    repeat split. by destruct (EdgeConv.arg_mlp_hidden a) as [[|c cs]|].
  - reflexivity.
  - intros self shape Hinit Hshape Hex.
    assert (Hfields : EdgeConv.mlp_hidden self
                      = default [] (EdgeConv.arg_mlp_hidden a) /\
                      EdgeConv.channels self = EdgeConv.arg_channels a).
    { unfold EdgeConv.__init__ in Hinit.
      apply rbind_ok in Hinit as (super & _ & Hinit). cbn beta zeta in Hinit.
      apply rbind_ok in Hinit as (f & _ & Hinit). injection Hinit as <-.
      simpl. split; [|reflexivity].
      by destruct (EdgeConv.arg_mlp_hidden a) as [[|c cs]|]. }
    destruct Hfields as [Hh Hc]. rewrite <- Hh, <- Hc in Hex.
    destruct (EdgeConv_build_cases self shape)
      as [[Hs _] | [(_ & _ & Hb) | (_ & Hall & _)]]; [lia | exact Hb |].
    destruct (Forall_nonneg_not_Exists_neg _ Hall Hex).
Qed.

(** X2: [EdgeConv.build] raises [AssertionError] exactly for an input
    shape of fewer than two dimensions, [ValueError] exactly when the shape
    is accepted and a hidden width or [channels] is negative, and nothing
    else; in every other case it returns. *)
Theorem EdgeConv_build_errors (self : EdgeConv.t R) (input_shape : list nat) :
  (EdgeConv.build input_shape self = Raise AssertionError <->
   (length input_shape < 2)%nat) /\
  (EdgeConv.build input_shape self = Raise ValueError <->
   (2 <= length input_shape)%nat /\
   Exists (fun c => (c < 0)%Z)
          (EdgeConv.mlp_hidden self ++ [EdgeConv.channels self])) /\
  (forall e, EdgeConv.build input_shape self = Raise e ->
     e = AssertionError \/ e = ValueError) /\
  ((exists self', EdgeConv.build input_shape self = Ok (tt, self')) <->
   (2 <= length input_shape)%nat /\
   Forall (fun c => (0 <= c)%Z)
          (EdgeConv.mlp_hidden self ++ [EdgeConv.channels self])).
Proof.
  destruct (EdgeConv_build_cases self input_shape)
    as [[Hs ->] | [(Hs & Hex & ->) | (Hs & Hall & self' & ->)]];
    (split; [|split; [|split]]).
  - split; [done | reflexivity].
  - split; [discriminate | lia].
  - intros e [= <-]. by left.
  - split; [intros [? [=]] | lia].
  - split; [discriminate | lia].
  - split; [done | reflexivity].
  - intros e [= <-]. by right.
  - split; [intros [? [=]]|]. intros [_ Hall].
    destruct (Forall_nonneg_not_Exists_neg _ Hall Hex).
  - split; [discriminate | lia].
  - split; [discriminate|]. intros [_ Hex].
    destruct (Forall_nonneg_not_Exists_neg _ Hall Hex).
  - intros e. discriminate.
  - split; [done | eauto].
Qed.

(** The layer list that a successful [build] installs. *)
Lemma EdgeConv_build_inv (self self' : EdgeConv.t R) (input_shape : list nat) :
  EdgeConv.build input_shape self = Ok (tt, self') ->
  exists hidden final,
    EdgeConv.mlp self' = Some (hidden ++ [final]) /\
    length hidden = length (EdgeConv.mlp_hidden self) /\
    Dense_init (EdgeConv.channels self) (Some (activation (EdgeConv.mp self)))
      (Some (use_bias (EdgeConv.mp self))) (kwargs (EdgeConv.mp self)) None
      (Some (dtype (EdgeConv.mp self))) = Ok final /\
    EdgeConv.channels self' = EdgeConv.channels self.
Proof.
  unfold EdgeConv.build.
  destruct (decide (2 <= length input_shape)%nat); [|discriminate].
  unfold_layer. cbn.
  destruct (rmapM_Dense_init (Some (EdgeConv.mlp_activation self)) None
              (kwargs (EdgeConv.mp self)) None
              (Some (dtype (EdgeConv.mp self))) (EdgeConv.mlp_hidden self))
    as [(ds & -> & _ & Hlen)|[-> _]]; cbn; [|discriminate].
  destruct (Dense_init (EdgeConv.channels self) _ _ _ _ _) as [final|e]
    eqn:Hfin; cbn; [|discriminate].
  intros [= <-]. exists ds, final. repeat split; assumption.
Qed.

(** X3: built from a constructor call without hidden widths
    ([mlp_hidden] left out, or empty), the MLP is the single output layer:
    [channels] units, the layer's activation, its [use_bias] and its
    initializers, and no weights yet. *)
Theorem EdgeConv_single_layer (a : EdgeConv.Args R)
    (self self' : EdgeConv.t R) (input_shape : list nat) :
  EdgeConv.arg_mlp_hidden a = None \/ EdgeConv.arg_mlp_hidden a = Some [] ->
  EdgeConv.__init__ a = Ok self ->
  EdgeConv.build input_shape self = Ok (tt, self') ->
  exists final,
    EdgeConv.mlp self' = Some [final] /\
    units final = Z.to_nat (EdgeConv.arg_channels a) /\
    d_use_bias final = EdgeConv.arg_use_bias a /\
    d_activation final = activations_get (EdgeConv.arg_activation a) /\
    d_kwargs final = EdgeConv.arg_kwargs a /\
    d_weights final = None.
Proof.
  intros Hhid Hinit Hbuild.
  destruct (EdgeConv_build_inv _ _ _ Hbuild)
    as (hidden & final & Hmlp & Hlen & Hfin & _).
  unfold EdgeConv.__init__, MessagePassing_init in Hinit.
  apply rbind_ok in Hinit as (super & Hsuper & Hinit).
  apply rbind_ok in Hsuper as (g & _ & Hsuper). cbn beta zeta in Hinit.
  apply rbind_ok in Hinit as (f & _ & Hinit).
  injection Hsuper as <-. injection Hinit as <-. simpl in *.
  assert (Hnil : hidden = []).
  { apply length_zero_iff_nil. rewrite Hlen.
    by destruct Hhid as [-> | ->]. }
  subst hidden. exists final. split; [exact Hmlp|].
  unfold Dense_init in Hfin.
  destruct (EdgeConv.arg_channels a <? 0)%Z; [discriminate|].
  injection Hfin as <-. repeat split.
Qed.

(** X4: [build] leaves a layer whose MLP ends with [channels] units;
    resetting the base attributes (the edge list) keeps that; and on such
    a layer every message row has exactly [channels] entries, with one row
    per edge. *)
Theorem EdgeConv_message_width :
  (forall (self self' : EdgeConv.t R) input_shape,
     EdgeConv.build input_shape self = Ok (tt, self') ->
     EdgeConv_built self') /\
  (forall (self : EdgeConv.t R) b,
     EdgeConv_built self -> EdgeConv_built (EdgeConv.set_mp b self)) /\
  (forall (self self' : EdgeConv.t R) x kw y,
     EdgeConv_built self ->
     EdgeConv.message x kw self = Ok (y, self') ->
     Z.of_nat (ncols y) = EdgeConv.channels self /\
     Forall (fun r => Z.of_nat (length r) = EdgeConv.channels self) (rows y) /\
     (forall targets, index_targets (EdgeConv.mp self) = Some targets ->
        length (rows y) = length targets) /\
     EdgeConv_built self').
Proof.
  split; [|split].
  - intros self self' shape Hbuild.
    destruct (EdgeConv_build_inv _ _ _ Hbuild)
      as (hidden & final & Hmlp & _ & Hfin & Hch).
    exists hidden, final. split; [exact Hmlp|]. rewrite Hch.
    unfold Dense_init in Hfin.
    destruct (EdgeConv.channels self <? 0)%Z eqn:Hc; [discriminate|].
    injection Hfin as <-. simpl. apply Z.ltb_ge in Hc. lia.
  - intros self b (hidden & final & Hmlp & Hu). by exists hidden, final.
  - intros self self' x kw y (hidden & final & Hmlp & Hu) Hmsg.
    destruct (EdgeConv_message_inv _ _ _ _ _ Hmsg)
      as (tg & sr & x_i & x_j & layers & layers' & Htg & _ & Hgi & _ & Hlen
          & Hmlp' & Hseq & ->).
    rewrite Hmlp in Hmlp'. injection Hmlp' as <-.
    destruct (sequential_call_last _ _ _ _ _ Hseq)
      as (Hn & Hrows & Hl & hidden' & final' & -> & Hu').
    repeat split.
    + by rewrite Hn.
    + eapply Forall_impl; [exact Hrows|]. simpl. by intros r ->.
    + intros targets Htg'. rewrite Htg in Htg'. injection Htg' as <-.
      rewrite Hl. simpl. unfold edge_rows. rewrite length_zip_with.
      destruct (gather_ok _ _ _ Hgi) as (_ & <- & _). lia.
    + exists hidden', final'. split; [reflexivity|]. simpl. by rewrite Hu'.
Qed.

(** X5: a [message] call that returned can be repeated: on the layer it
    left behind, the same call returns the same rows and changes nothing;
    the weights built by the first call persist. *)
Theorem EdgeConv_message_repeat (self self' : EdgeConv.t R) (x y : Tensor R)
    (kw : Kwargs R) :
  EdgeConv.message x kw self = Ok (y, self') ->
  EdgeConv.message x kw self' = Ok (y, self').
Proof.
  intros Hmsg.
  destruct (EdgeConv_message_inv _ _ _ _ _ Hmsg)
    as (tg & sr & x_i & x_j & layers & layers' & Htg & Hsr & Hgi & Hgj & Hlen
        & Hmlp & Hseq & ->).
  apply sequential_call_again in Hseq.
  exact (EdgeConv_message_intro (EdgeConv.set_mlp layers' self) x y x_i x_j kw
           tg sr layers' layers' Htg Hsr Hgi Hgj Hlen eq_refl Hseq).
Qed.

(** X6: [message] on a layer that was not built never returns; once the
    edge list is set and in range, it raises [AttributeError]. *)
Theorem EdgeConv_message_unbuilt (self : EdgeConv.t R) (x : Tensor R)
    (kw : Kwargs R) :
  EdgeConv.mlp self = None ->
  (forall y self', EdgeConv.message x kw self <> Ok (y, self')) /\
  (forall targets sources,
     index_targets (EdgeConv.mp self) = Some targets ->
     index_sources (EdgeConv.mp self) = Some sources ->
     Forall (fun i => (i < length (rows x))%nat) (targets ++ sources) ->
     EdgeConv.message x kw self = Raise AttributeError).
Proof.
  intros Hmlp. split.
  - intros y self' Hmsg.
    destruct (EdgeConv_message_inv _ _ _ _ _ Hmsg)
      as (_ & _ & _ & _ & layers & _ & _ & _ & _ & _ & _ & Hl & _).
    congruence.
  - intros tg sr Htg Hsr Hin. apply Forall_app in Hin as [Hti Hsi].
    destruct (gather_total x tg Hti) as [x_i Hgi].
    destruct (gather_total x sr Hsi) as [x_j Hgj].
    destruct self as [b ch hid act m]. simpl in *. subst m.
    unfold EdgeConv.message, get_targets, get_sources. unfold_layer. cbn.
    rewrite Htg. cbn. rewrite Hgi. cbn. rewrite Hsr. cbn. rewrite Hgj.
    reflexivity.
Qed.

(** X7: [config] holds the three constructor arguments [channels],
    [mlp_hidden], [mlp_activation] and nothing else, and a layer constructed
    from them again has the same [config]; the stored [mlp_activation] is
    the resolved callable, which [activations.get] hands back as it is. *)
Theorem EdgeConv_config_round_trip (self : EdgeConv.t R) :
  EdgeConv.config self !! "channels" = Some (VInt (EdgeConv.channels self)) /\
  EdgeConv.config self !! "mlp_hidden"
    = Some (VInts (EdgeConv.mlp_hidden self)) /\
  EdgeConv.config self !! "mlp_activation"
    = Some (VActivation (EdgeConv.mlp_activation self)) /\
  dom (EdgeConv.config self)
    = ({[ "channels"; "mlp_hidden"; "mlp_activation" ]} : gset string) /\
  (forall (a : EdgeConv.Args R) (self' : EdgeConv.t R),
     EdgeConv.arg_channels a = EdgeConv.channels self ->
     EdgeConv.arg_mlp_hidden a = Some (EdgeConv.mlp_hidden self) ->
     EdgeConv.arg_mlp_activation a
       = IdCallable (EdgeConv.mlp_activation self) ->
     EdgeConv.__init__ a = Ok self' ->
     EdgeConv.config self' = EdgeConv.config self).
Proof.
  unfold EdgeConv.config. split; [|split; [|split; [|split]]].
  - by rewrite lookup_insert_eq.
  - rewrite lookup_insert_ne by done. by rewrite lookup_insert_eq.
  - rewrite !lookup_insert_ne by done. by rewrite lookup_singleton_eq.
  - rewrite !dom_insert_L, dom_singleton_L. set_solver.
  - intros a self' Hc Hh Ha Hinit. unfold EdgeConv.__init__ in Hinit.
    apply rbind_ok in Hinit as (super & _ & Hinit). cbn beta zeta in Hinit.
    rewrite Ha in Hinit. simpl in Hinit. injection Hinit as <-.
    simpl. rewrite Hc, Hh. simpl.
    by destruct (EdgeConv.mlp_hidden self).
Qed.

(** After a call, every layer of a [Sequential] holds weights, and the
    stack accepts the width of the input it was called on. *)
Lemma sequential_call_chain (layers layers' : list (Dense R))
    (x y : Tensor R) :
  sequential_call layers x = Ok (y, layers') ->
  Forall (fun d => is_Some (d_weights d)) layers' /\
  mlp_accepts layers' (ncols x) /\
  length layers' = length layers.
Proof.
  revert x layers'. induction layers as [|d ds IH]; intros x layers' Hs;
    simpl in Hs.
  - injection Hs as <- <-. repeat split. constructor.
  - apply rbind_ok in Hs as ([y1 d'] & Hd & Hs).
    apply rbind_ok in Hs as ([z ds'] & Hds & Hs). injection Hs as <- <-.
    destruct (IH _ _ Hds) as (Hall & Hacc & Hlen).
    destruct (dense_call_weights _ _ _ _ Hd) as (w & -> & Hin & _).
    destruct (dense_call_shape _ _ _ _ Hd) as (Hn & _).
    repeat split.
    + constructor; [by eexists | exact Hall].
    + exact Hin.
    + simpl. by rewrite <- Hn.
    + simpl. by rewrite Hlen.
Qed.

(** X14: after a [message] call on features of width [F], every layer of
    the MLP holds weights; the first one is built for inputs of width
    [2 * F] (the row [x_i] followed by [x_j - x_i]) and each later one for
    the units of the layer before it. *)
Theorem EdgeConv_mlp_shapes (self self' : EdgeConv.t R) (x y : Tensor R)
    (kw : Kwargs R) :
  EdgeConv.message x kw self = Ok (y, self') ->
  exists layers layers',
    EdgeConv.mlp self = Some layers /\
    EdgeConv.mlp self' = Some layers' /\
    length layers' = length layers /\
    Forall (fun d => is_Some (d_weights d)) layers' /\
    mlp_accepts layers' (2 * ncols x) /\
    EdgeConv.mp self' = EdgeConv.mp self /\
    EdgeConv.channels self' = EdgeConv.channels self.
Proof.
  intros Hmsg.
  destruct (EdgeConv_message_inv _ _ _ _ _ Hmsg)
    as (tg & sr & x_i & x_j & layers & layers' & _ & _ & Hgi & Hgj & _
        & Hmlp & Hseq & ->).
  destruct (sequential_call_chain _ _ _ _ Hseq) as (Hall & Hacc & Hlen).
  destruct (gather_ok _ _ _ Hgi) as (Hci & _).
  destruct (gather_ok _ _ _ Hgj) as (Hcj & _).
  exists layers, layers'. repeat split; try assumption.
  simpl in Hacc. rewrite Hci, Hcj in Hacc.
  by replace (2 * ncols x)%nat with (ncols x + ncols x)%nat by lia.
Qed.

End EdgeConvMore.

(** ** [TAGConv]: build, repeated calls, the kernel of [linear] *)

Section TAGConvMore.
Context {R : Type} `{Scalar R}.

(** [call_concat] computes [concat_output] and keeps the parameters. *)
Lemma TAGConv_concat_value (self : TAGConv.t R) (inputs : Inputs R) :
  match concat_output (TAGConv.K self) (agg (TAGConv.mp self)) inputs with
  | Ok c => exists s, TAGConv.call_concat inputs self = Ok (c, s) /\
                      same_parameters s self
  | Raise e => TAGConv.call_concat inputs self = Raise e
  end.
Proof.
  unfold concat_output, TAGConv.call_concat, bind, lift.
  rewrite TAGConv_call_blocks_eq.
  destruct (Z.to_nat (TAGConv.K self)) as [|n] eqn:Hn; cbn [rbind].
  - simpl. exists self. by repeat split.
  - destruct (hop_value (agg (TAGConv.mp self)) (in_x inputs) (in_a inputs)
                (values (in_a inputs))) as [h|e] eqn:Hh; cbn [rbind].
    + destruct (TAGConv_hops_ok (S n) _ _ _ h self [in_x inputs] Hh)
        as (sn & -> & Hg & Hl & Hk & Hc & _).
      change ([in_x inputs] ++ replicate (S n) h)
        with (in_x inputs :: replicate (S n) h).
      destruct (concatenate (in_x inputs :: replicate (S n) h)) as [c|e];
        [|reflexivity].
      exists sn. by repeat split.
    + by rewrite (TAGConv_hops_raise _ _ _ _ _ _ _ Hh).
Qed.

(** [call] computes [call_output] and keeps the hop count and the
    aggregation mode. *)
Lemma TAGConv_call_value (self : TAGConv.t R) (inputs : Inputs R) :
  match call_output (TAGConv.K self) (agg (TAGConv.mp self))
          (TAGConv.linear self) inputs with
  | Ok (y, d) =>
      exists self', TAGConv.call inputs self = Ok (y, self') /\
                    TAGConv.linear self' = d /\
                    TAGConv.K self' = TAGConv.K self /\
                    TAGConv.channels self' = TAGConv.channels self /\
                    agg (TAGConv.mp self') = agg (TAGConv.mp self)
  | Raise e => TAGConv.call inputs self = Raise e
  end.
Proof.
  unfold call_output, TAGConv.call, bind.
  pose proof (TAGConv_concat_value self inputs) as Hc.
  destruct (concat_output (TAGConv.K self) (agg (TAGConv.mp self)) inputs)
    as [c|e]; cbn [rbind].
  - destruct Hc as (s & -> & Hk & Hch & Hg & Hl).
    unfold TAGConv.apply_linear. rewrite Hl.
    destruct (dense_call (TAGConv.linear self) c) as [[y d]|e]; [|reflexivity].
    eexists. split; [reflexivity|]. by repeat split.
  - simpl in Hc. by rewrite Hc.
Qed.

Lemma TAGConv_call_value_inv (self self' : TAGConv.t R) (inputs : Inputs R)
    (y : Tensor R) :
  TAGConv.call inputs self = Ok (y, self') ->
  call_output (TAGConv.K self) (agg (TAGConv.mp self)) (TAGConv.linear self)
    inputs = Ok (y, TAGConv.linear self') /\
  TAGConv.K self' = TAGConv.K self /\
  TAGConv.channels self' = TAGConv.channels self /\
  agg (TAGConv.mp self') = agg (TAGConv.mp self).
Proof.
  intros Hcall. pose proof (TAGConv_call_value self inputs) as Hv.
  destruct (call_output _ _ _ inputs) as [[y' d]|e].
  - destruct Hv as (s & Hs & Hl & Hk & Hc & Hg). rewrite Hcall in Hs.
    injection Hs as -> ->. by rewrite Hl.
  - congruence.
Qed.

(** The concatenation has one row per node and [K+1] blocks of the input
    width. *)
Lemma concat_output_shape (k : Z) (g : Aggregate) (inputs : Inputs R)
    (c : Tensor R) :
  concat_output k g inputs = Ok c ->
  ncols c = (S (Z.to_nat k) * ncols (in_x inputs))%nat /\
  length (rows c) = length (rows (in_x inputs)).
Proof.
  unfold concat_output. intros Hc. apply rbind_ok in Hc as (hs & Hhs & Hc).
  simpl in Hc. destruct (concatenate_from_rows _ _ _ Hc) as (Hrows & _).
  split; [|exact Hrows].
  destruct (Z.to_nat k) as [|n].
  - injection Hhs as <-. simpl in Hc. injection Hc as <-. lia.
  - apply rbind_ok in Hhs as (h & Hh & Hhs). injection Hhs as <-.
    destruct (hop_value_shape _ _ _ _ _ Hh) as [Hl Hn].
    destruct (concatenate_replicate (in_x inputs) h (S n) Hl) as (c' & Hc' & Hw).
    pose proof (eq_trans (eq_sym Hc) Hc') as Heq. injection Heq as ->.
    rewrite Hw, Hn. lia.
Qed.

Lemma concat_output_total (k : Z) (g : Aggregate) (inputs : Inputs R) :
  indices_in_range (in_a inputs) (length (rows (in_x inputs))) = true ->
  length (values (in_a inputs)) = length (indices (in_a inputs)) ->
  exists c, concat_output k g inputs = Ok c.
Proof.
  intros Hin Hw. unfold concat_output.
  destruct (Z.to_nat k) as [|n]; simpl; [eauto|].
  destruct (hop_value_total g _ _ _ Hin Hw) as [h Hh]. rewrite Hh. simpl.
  destruct (hop_value_shape _ _ _ _ _ Hh) as [Hl _].
  destruct (concatenate_replicate (in_x inputs) h (S n) Hl) as (c & Hc & _).
  eauto.
Qed.

(** What a successful [call] has computed and built. *)
Lemma TAGConv_call_built (self self' : TAGConv.t R) (inputs : Inputs R)
    (y : Tensor R) :
  TAGConv.call inputs self = Ok (y, self') ->
  exists c w,
    concat_output (TAGConv.K self) (agg (TAGConv.mp self)) inputs = Ok c /\
    dense_call (TAGConv.linear self) c = Ok (y, TAGConv.linear self') /\
    TAGConv.linear self' = set_weights (TAGConv.linear self) w /\
    in_dim w = ncols c /\
    (d_weights (TAGConv.linear self) = None ->
     w = dense_build (TAGConv.linear self) (ncols c)) /\
    rows y = map (dense_row (TAGConv.linear self) w) (rows c) /\
    same_parameters self' (TAGConv.set_linear (TAGConv.linear self') self).
Proof.
  intros Hcall.
  destruct (TAGConv_call_value_inv _ _ _ _ Hcall) as (Hout & Hk & Hch & Hg).
  unfold call_output in Hout. apply rbind_ok in Hout as (c & Hc & Hd).
  destruct (dense_call_weights _ _ _ _ Hd) as (w & Hw & Hin & Hfresh & Hrows).
  exists c, w. repeat split; assumption.
Qed.

(** Layers with the same parameters give the same outcome of [call]. *)
Lemma TAGConv_call_congr (s1 s2 : TAGConv.t R) (inputs : Inputs R) :
  same_parameters s1 s2 ->
  match TAGConv.call inputs s2 with
  | Ok (y, s) => exists s', TAGConv.call inputs s1 = Ok (y, s') /\
                            TAGConv.linear s' = TAGConv.linear s
  | Raise e => TAGConv.call inputs s1 = Raise e
  end.
Proof.
  intros (Hk & _ & Hg & Hl).
  pose proof (TAGConv_call_value s1 inputs) as H1.
  pose proof (TAGConv_call_value s2 inputs) as H2.
  rewrite Hk, Hg, Hl in H1.
  destruct (call_output (TAGConv.K s2) (agg (TAGConv.mp s2))
              (TAGConv.linear s2) inputs) as [[y d]|e].
  - destruct H1 as (s1' & Hc1 & Hl1 & _). destruct H2 as (s2' & -> & Hl2 & _).
    exists s1'. split; [exact Hc1 | congruence].
  - by rewrite H2.
Qed.

(** X8: the tensor that [call] hands to [self.linear] has [K+1] blocks of
    the input width, so the kernel that the first call builds has
    [(K+1) * F] rows, initialized by the layer's kernel initializer. *)
Theorem TAGConv_kernel_shape (self self' : TAGConv.t R) (inputs : Inputs R)
    (y : Tensor R) :
  TAGConv.call inputs self = Ok (y, self') ->
  let width := (S (Z.to_nat (TAGConv.K self)) * ncols (in_x inputs))%nat in
  (exists c s,
     TAGConv.call_concat inputs self = Ok (c, s) /\
     ncols c = width /\
     length (rows c) = length (rows (in_x inputs)) /\
     dense_call (TAGConv.linear self) c = Ok (y, TAGConv.linear self')) /\
  (exists w,
     d_weights (TAGConv.linear self') = Some w /\
     in_dim w = width /\
     (d_weights (TAGConv.linear self) = None ->
      kernel w = kernel_initializer (d_kwargs (TAGConv.linear self)) width
                   (units (TAGConv.linear self)))).
Proof.
  intros Hcall width.
  destruct (TAGConv_call_built _ _ _ _ Hcall)
    as (c & w & Hc & Hd & Hl & Hin & Hfresh & _).
  destruct (concat_output_shape _ _ _ _ Hc) as [Hn Hrows].
  pose proof (TAGConv_concat_value self inputs) as Hv. rewrite Hc in Hv.
  destruct Hv as (s & Hs & _). split.
  - exists c, s. repeat split; assumption.
  - exists w. rewrite Hl. split; [reflexivity|].
    split; [by rewrite Hin|].
    intros Hnone. rewrite (Hfresh Hnone). simpl. by rewrite Hn.
Qed.

(** X9: after a call that returned, the layer is locked to the width of
    that call's node features: on a well-formed graph a later call returns
    when the width is the same and raises [ShapeMismatchError] when it is
    not. *)
Theorem TAGConv_width_locked (self s1 : TAGConv.t R) (inputs inputs' : Inputs R)
    (y : Tensor R) :
  TAGConv.call inputs self = Ok (y, s1) ->
  indices_in_range (in_a inputs') (length (rows (in_x inputs'))) = true ->
  length (values (in_a inputs')) = length (indices (in_a inputs')) ->
  (ncols (in_x inputs') = ncols (in_x inputs) ->
   exists y' s2, TAGConv.call inputs' s1 = Ok (y', s2)) /\
  (ncols (in_x inputs') <> ncols (in_x inputs) ->
   TAGConv.call inputs' s1 = Raise ShapeMismatchError).
Proof.
  intros Hcall Hin Hw.
  destruct (TAGConv_call_built _ _ _ _ Hcall)
    as (c & w & Hc & _ & Hl & Hdim & _ & _ & (Hk & _ & Hg & _)).
  simpl in Hk, Hg.
  destruct (concat_output_shape _ _ _ _ Hc) as [Hn _].
  destruct (concat_output_total (TAGConv.K s1) (agg (TAGConv.mp s1)) inputs'
              Hin Hw) as [c' Hc'].
  destruct (concat_output_shape _ _ _ _ Hc') as [Hn' _].
  pose proof (TAGConv_call_value s1 inputs') as Hv.
  unfold call_output in Hv. rewrite Hc' in Hv. cbn [rbind] in Hv.
  unfold dense_call in Hv. rewrite Hl in Hv. cbn [d_weights set_weights] in Hv.
  rewrite Hk in Hn'. split.
  - intros Heq.
    destruct (decide (in_dim w = ncols c')) as [_|Hne];
      [|exfalso; apply Hne; congruence].
    cbn [rbind] in Hv. destruct Hv as (s2 & Hs2 & _). eauto.
  - intros Hneq.
    destruct (decide (in_dim w = ncols c')) as [Heq|_]; [|exact Hv].
    exfalso. apply Hneq. rewrite Hdim, Hn, Hn' in Heq.
    apply Nat.mul_cancel_l in Heq; [congruence | lia].
Qed.

(** X10: a [call] that returned can be repeated: on the layer it left
    behind, the same inputs give the same output, and [linear], built by
    the first call, is not changed by the second. *)
Theorem TAGConv_call_repeat (self s1 : TAGConv.t R) (inputs : Inputs R)
    (y : Tensor R) :
  TAGConv.call inputs self = Ok (y, s1) ->
  exists s2,
    TAGConv.call inputs s1 = Ok (y, s2) /\
    TAGConv.linear s2 = TAGConv.linear s1 /\
    TAGConv.K s2 = TAGConv.K self /\
    TAGConv.channels s2 = TAGConv.channels self.
Proof.
  intros Hcall.
  destruct (TAGConv_call_built _ _ _ _ Hcall)
    as (c & w & Hc & Hd & _ & _ & _ & _ & (Hk & Hch & Hg & _)).
  simpl in Hk, Hch, Hg.
  pose proof (TAGConv_call_value s1 inputs) as Hv.
  unfold call_output in Hv. rewrite Hk, Hg, Hc in Hv. cbn [rbind] in Hv.
  rewrite (dense_call_again _ _ _ _ Hd) in Hv.
  destruct Hv as (s2 & Hs2 & Hl2 & Hk2 & Hch2 & _).
  exists s2. repeat split; congruence.
Qed.

(** X11: [TAGConv.build] checks the rank of the input shape and nothing
    else: it raises [AssertionError] exactly for fewer than two dimensions,
    creates no weights, and a layer that was built behaves in [call] like
    one that was not. *)
Theorem TAGConv_build_rank_only (self : TAGConv.t R) (input_shape : list nat) :
  (TAGConv.build input_shape self = Raise AssertionError <->
   (length input_shape < 2)%nat) /\
  ((2 <= length input_shape)%nat ->
   exists self1,
     TAGConv.build input_shape self = Ok (tt, self1) /\
     built (TAGConv.mp self1) = true /\
     same_parameters self1 self /\
     propagate_log (TAGConv.mp self1) = propagate_log (TAGConv.mp self) /\
     forall inputs,
       match TAGConv.call inputs self with
       | Ok (y, s) => exists s', TAGConv.call inputs self1 = Ok (y, s') /\
                                 TAGConv.linear s' = TAGConv.linear s
       | Raise e => TAGConv.call inputs self1 = Raise e
       end).
Proof.
  unfold TAGConv.build.
  destruct (decide (2 <= length input_shape)%nat) as [Hs|Hs]; split.
  - split; [discriminate | lia].
  - intros _. eexists. split; [reflexivity|].
    split; [reflexivity|]. split; [by repeat split|].
    split; [reflexivity|]. intros inputs.
    apply TAGConv_call_congr. by repeat split.
  - split; [lia | reflexivity].
  - lia.
Qed.

(** X12: [TAGConv.message] needs the edge weights: called without
    [edge_weight] (its default [None]) it raises [TypeError] as soon as the
    gather of the source features succeeds. *)
Theorem TAGConv_message_needs_weights (self : TAGConv.t R) (x : Tensor R)
    (sources : list nat) :
  index_sources (TAGConv.mp self) = Some sources ->
  Forall (fun j => (j < length (rows x))%nat) sources ->
  TAGConv.message x (mkKwargs None) self = Raise TypeError.
Proof.
  intros Hsrc Hin. destruct (gather_total x sources Hin) as [g Hg].
  destruct self as [b c k l]. simpl in Hsrc.
  unfold TAGConv.message, get_sources. unfold_layer. cbn.
  rewrite Hsrc. cbn. rewrite Hg. reflexivity.
Qed.

(** X13: for a layer fresh from the constructor, the rows of the output
    of [call] are the rows of the concatenation through one [Dense] step:
    entry [j] is the backend's inner product [sdot] of the row with column
    [j] of the kernel, which comes from the layer's kernel initializer, plus
    the bias only with [use_bias], and the layer's activation is applied
    once.  The order in which the products are added is the backend's: the
    statement holds for every [sdot]. *)
Theorem TAGConv_fresh_output (a : TAGConv.Args R) (self self' : TAGConv.t R)
    (inputs : Inputs R) (y : Tensor R) :
  TAGConv.__init__ a = Ok self ->
  TAGConv.call inputs self = Ok (y, self') ->
  let width := (S (Z.to_nat (TAGConv.arg_K a)) * ncols (in_x inputs))%nat in
  exists c s,
    TAGConv.call_concat inputs self = Ok (c, s) /\
    ncols c = width /\
    rows y = map (fresh_linear_row a width) (rows c).
Proof.
  intros Hinit Hcall width.
  destruct (TAGConv_call_built _ _ _ _ Hcall)
    as (c & w & Hc & _ & _ & _ & Hfresh & Hrows & _).
  destruct (concat_output_shape _ _ _ _ Hc) as [Hn _].
  pose proof (TAGConv_concat_value self inputs) as Hv. rewrite Hc in Hv.
  destruct Hv as (s & Hs & _).
  unfold TAGConv.__init__ in Hinit.
  apply rbind_ok in Hinit as (super & _ & Hinit).
  apply rbind_ok in Hinit as (lin & Hlin & Hinit). injection Hinit as <-.
  unfold Dense_init in Hlin.
  destruct (TAGConv.arg_channels a <? 0)%Z; [discriminate|].
  injection Hlin as <-. simpl in *.
  exists c, s. split; [exact Hs|]. split; [exact Hn|].
  rewrite Hrows, (Hfresh eq_refl), Hn. reflexivity.
Qed.

(** The errors of one hop, of a concatenation and of a [Dense] call. *)
Lemma hop_value_raise (g : Aggregate) (x : Tensor R) (a : SparseTensor R)
    (w : Vec R) (e : exn) :
  hop_value g x a w = Raise e ->
  (e = IndexOutOfRangeError /\
   indices_in_range a (length (rows x)) = false) \/
  (e = ShapeMismatchError /\
   indices_in_range a (length (rows x)) = true).
Proof.
  unfold hop_value.
  destruct (indices_in_range a (length (rows x))) eqn:Hin.
  2:{ intros [= <-]. by left. }
  destruct (indices_in_range_Forall _ _ Hin) as [Hsrc _].
  destruct (gather_total x _ Hsrc) as [x_j ->]. cbn [rbind].
  intros He. right. split; [|reflexivity].
  destruct (scale_rows w x_j) as [m|e'] eqn:Hm; cbn [rbind] in He.
  - destruct (decide (length (map snd (indices a)) = length (rows m)));
      [discriminate|]. by injection He as <-.
  - injection He as <-. unfold scale_rows in Hm.
    destruct (decide (length w = length (rows x_j))); [discriminate|].
    destruct w as [|w0 [|w1 w]]; destruct (rows x_j) as [|r [|r' rs]];
      try discriminate; by injection Hm as <-.
Qed.

Lemma concatenate_from_raise (acc : Tensor R) (ts : list (Tensor R))
    (e : exn) :
  concatenate_from acc ts = Raise e -> e = ShapeMismatchError.
Proof.
  revert acc. induction ts as [|t ts IH]; intros acc; simpl; [discriminate|].
  unfold concat2.
  destruct (decide (length (rows acc) = length (rows t))); cbn [rbind].
  - apply IH.
  - by intros [= <-].
Qed.

Lemma dense_call_raise (d : Dense R) (x : Tensor R) (e : exn) :
  dense_call d x = Raise e -> e = ShapeMismatchError.
Proof.
  unfold dense_call. destruct (d_weights d) as [w|]; cbn [rbind];
    [|discriminate].
  destruct (decide (in_dim w = ncols x)); cbn [rbind]; [discriminate|].
  by intros [= <-].
Qed.

(** X15: [call] raises nothing but [IndexOutOfRangeError] and
    [ShapeMismatchError]; the first exactly when there is at least one hop
    and the adjacency indexes a node that does not exist.  With no hop the
    adjacency is not looked at. *)
Theorem TAGConv_call_errors (self : TAGConv.t R) (inputs : Inputs R) :
  (forall e, TAGConv.call inputs self = Raise e ->
     e = IndexOutOfRangeError \/ e = ShapeMismatchError) /\
  (TAGConv.call inputs self = Raise IndexOutOfRangeError <->
   (0 < TAGConv.K self)%Z /\
   indices_in_range (in_a inputs) (length (rows (in_x inputs))) = false).
Proof.
  pose proof (TAGConv_call_value self inputs) as Hv.
  unfold call_output, concat_output in Hv.
  destruct (Z.to_nat (TAGConv.K self)) as [|n] eqn:Hn; cbn [rbind] in Hv.
  - (* no hop *)
    simpl concatenate in Hv. cbn [rbind] in Hv.
    destruct (dense_call (TAGConv.linear self) (in_x inputs)) as [[y d]|e0]
      eqn:Hd.
    + destruct Hv as (s & -> & _). split; [discriminate|].
      split; [discriminate | lia].
    + rewrite Hv. apply dense_call_raise in Hd. subst e0. split.
      * intros e [= <-]. by right.
      * split; [discriminate | lia].
  - destruct (hop_value (agg (TAGConv.mp self)) (in_x inputs) (in_a inputs)
                (values (in_a inputs))) as [h|e0] eqn:Hh; cbn [rbind] in Hv.
    + assert (Hin : indices_in_range (in_a inputs)
                      (length (rows (in_x inputs))) = true).
      { unfold hop_value in Hh.
        by destruct (indices_in_range (in_a inputs)
                       (length (rows (in_x inputs)))). }
      destruct (concatenate (in_x inputs :: replicate (S n) h)) as [c|e1]
        eqn:Hc; cbn [rbind] in Hv.
      * destruct (dense_call (TAGConv.linear self) c) as [[y d]|e2] eqn:Hd.
        -- destruct Hv as (s & -> & _). split; [discriminate|].
           split; [discriminate|]. intros [_ Hf]. congruence.
        -- rewrite Hv. apply dense_call_raise in Hd. subst e2. split.
           ++ intros e [= <-]. by right.
           ++ split; [discriminate|]. intros [_ Hf]. congruence.
      * rewrite Hv. apply concatenate_from_raise in Hc. subst e1. split.
        -- intros e [= <-]. by right.
        -- split; [discriminate|]. intros [_ Hf]. congruence.
    + rewrite Hv. destruct (hop_value_raise _ _ _ _ _ Hh) as [[-> Hf]|[-> Ht]].
      * split; [intros e [= <-]; by left|].
        split; [intros _; split; [lia | exact Hf] | reflexivity].
      * split; [intros e [= <-]; by right|].
        split; [discriminate|]. intros [_ Hf]. congruence.
Qed.

End TAGConvMore.

(** * The layers of [Examples] *)

Section Instances.
Import Examples.
#[local] Existing Instance Float.binary32.
#[local] Existing Instance builtin_activations.

Example tag_layer_init : TAGConv.__init__ tag_args = Ok tag_layer.
Proof. reflexivity. Qed.

(** One hop on the three-node graph: node 0 has no incoming edge, node 1
    receives [1 * x_0] and node 2 receives [1/2 * x_1]. *)
Example tag_hop_x3 :
  hop_value AggSum x3 a3 (values a3) =
  Ok (mkTensor 2 [[f32 0; f32 0];
                  [f32 1; f32 2];
                  [S754_finite false 12582912 (-23); f32 2]]).
Proof. reflexivity. Qed.

(** The block list of [call] on that graph, with [K = 2]. *)
Example tag_blocks_x3 :
  match TAGConv.call_blocks inputs3 tag_layer,
        hop_value AggSum x3 a3 (values a3) with
  | Ok (blocks, _), Ok h => blocks = [x3; h; h]
  | _, _ => False
  end.
Proof. vm_compute. reflexivity. Qed.

(** *** Instances of the theorems *)

Lemma TAGConv_call_hops_witness :
  exists h s1 sn,
    propagate x3 a3 tag_kwargs3 tag_layer = Ok (h, s1) /\
    TAGConv.call_blocks inputs3 tag_layer = Ok ([x3; h; h], sn) /\
    length (propagate_log (TAGConv.mp sn)) = 2%nat.
Proof.
  pose (r := unwrap (propagate x3 a3 tag_kwargs3 tag_layer)).
  destruct (TAGConv_call_hops tag_layer inputs3) as (_ & _ & Hok).
  destruct (Hok (fst r) (snd r) eq_refl) as (sn & Hb & Hlog & _).
  exists (fst r), (snd r), sn. split; [reflexivity|].
  split; [exact Hb|]. rewrite Hlog. reflexivity.
Defined.

Lemma TAGConv_output_width_witness :
  TAGConv_linked tag_layer /\
  exists y self', TAGConv.call inputs3 tag_layer = Ok (y, self') /\
                  ncols y = 2%nat /\ length (rows y) = 3%nat.
Proof.
  split; [reflexivity|].
  destruct (TAGConv_output_width tag_layer inputs3 eq_refl) as [Hw Ht].
  destruct (Ht eq_refl eq_refl eq_refl) as (y & self' & Hcall).
  destruct (Hw y self' Hcall) as (Hn & _ & Hr & _).
  exists y, self'. split; [exact Hcall|]. split; [|exact Hr].
  simpl in Hn. lia.
Defined.

Lemma TAGConv_hop0_block_witness :
  exists c s, TAGConv.call_concat inputs3 tag_layer = Ok (c, s) /\
              map (take 2) (rows c) = rows x3.
Proof.
  pose (r := unwrap (TAGConv.call_concat inputs3 tag_layer)).
  exists (fst r), (snd r). split; [reflexivity|].
  destruct (TAGConv_hop0_block tag_layer inputs3) as [_ Hc].
  destruct (Hc (fst r) (snd r) eq_refl) as (_ & _ & Htake).
  apply Htake. repeat constructor.
Defined.

Lemma TAGConv_message_scales_witness :
  exists m,
    TAGConv.message x3 tag_kwargs3 (after_hop x3 a3 tag_kwargs3 tag_layer)
      = Ok (m, after_hop x3 a3 tag_kwargs3 tag_layer) /\
    rows m !! 1%nat = Some (map (smul half) [f32 3; f32 4]).
Proof.
  destruct (TAGConv_message_scales (after_hop x3 a3 tag_kwargs3 tag_layer)
              x3 (values a3) [0; 1]%nat eq_refl eq_refl)
    as (m & Hm & _ & _ & Hrows).
  { repeat constructor. }
  exists m. split; [exact Hm|].
  apply (Hrows 1%nat 1%nat [f32 3; f32 4] half); reflexivity.
Defined.

Lemma TAGConv_preprocess_then_hops_witness :
  exists y s,
    TAGConv.call inputs2 tag_layer = Ok (y, s) /\
    exists calls, propagate_log (TAGConv.mp s) = calls /\
                  length calls = 2%nat /\
                  Forall (fun c => pc_a c = a2 /\ pc_x c = x2) calls.
Proof.
  pose (r := unwrap (TAGConv.call inputs2 tag_layer)).
  exists (fst r), (snd r). split; [reflexivity|].
  destruct TAGConv_preprocess_then_hops as [_ Hcalls].
  destruct (Hcalls tag_layer (snd r) inputs2 (fst r) eq_refl)
    as (calls & Hlog & Hlen & Hall).
  exists calls. split; [exact Hlog|]. split; [exact Hlen | exact Hall].
Defined.

Lemma TAGConv_init_checks_witness :
  TAGConv.__init__ tag_args_negative = Raise ConfigurationError /\
  exists self, TAGConv.__init__ tag_args_K0 = Ok self /\
               TAGConv.K self = 0%Z /\
               TAGConv.call_blocks inputs3 self = Ok ([x3], self).
Proof.
  split.
  { apply (TAGConv_init_checks tag_args_negative). simpl. lia. }
  destruct (TAGConv_init_checks tag_args_K0) as (_ & Hok & Hno).
  destruct (Hok AggSum eq_refl) as (self & Hi & Hk & _); [simpl; lia|].
  exists self. split; [exact Hi|]. split; [exact Hk|].
  apply (Hno self inputs3 Hi). simpl. lia.
Defined.

Lemma EdgeConv_message_mlp_witness :
  exists y layers' s,
    EdgeConv.message x3 no_kwargs (edge_layer_on x3 a3) = Ok (y, s) /\
    EdgeConv.mlp s = Some layers' /\
    rows y !! 0%nat =
      Some (mlp_row layers' ([f32 3; f32 4] ++ vsub [f32 1; f32 2] [f32 3; f32 4])).
Proof.
  destruct (EdgeConv_message_mlp (edge_layer_on x3 a3) x3 no_kwargs
              [1; 2]%nat [0; 1]%nat _ eq_refl eq_refl eq_refl eq_refl)
    as (y & layers' & Hmsg & _ & _ & Hrows).
  { repeat constructor. }
  { repeat constructor. }
  { simpl. repeat split. }
  exists y, layers', (EdgeConv.set_mlp layers' (edge_layer_on x3 a3)).
  split; [exact Hmsg|]. split; [reflexivity|].
  apply (Hrows 0%nat 1%nat 0%nat); reflexivity.
Defined.

Lemma EdgeConv_build_bias_witness :
  exists self' hidden final,
    EdgeConv.build [3; 2]%nat (unwrap (EdgeConv.__init__ edge_args))
      = Ok (tt, self') /\
    EdgeConv.mlp self' = Some (hidden ++ [final]) /\
    use_bias (EdgeConv.mp self') = false /\
    Forall (fun d => d_use_bias d = true) hidden /\
    length hidden = 1%nat /\
    d_use_bias final = false.
Proof.
  destruct (EdgeConv_build_bias (unwrap (EdgeConv.__init__ edge_args))
              [3; 2]%nat) as [Hb Ht].
  destruct Ht as (self' & Hrun).
  { simpl. lia. }
  { constructor; [lia | constructor]. }
  { simpl. lia. }
  destruct (Hb self' Hrun) as (hidden & final & Hmlp & Hhid & _ & Hfin & _ & _ & Hub).
  exists self', hidden, final. split; [exact Hrun|]. split; [exact Hmlp|].
  split; [exact Hub|]. split; [|split; [|exact Hfin]].
  - eapply Forall2_Forall_r; [exact Hhid|].
    apply Forall_forall. intros c _ d (_ & Hd & _). exact Hd.
  - apply Forall2_length in Hhid. simpl in Hhid. lia.
Defined.

Lemma EdgeConv_self_loop_message_witness :
  exists y layers' s,
    EdgeConv.message x_finite no_kwargs (edge_layer_on x_finite loop_a)
      = Ok (y, s) /\
    EdgeConv.mlp s = Some layers' /\
    rows y !! 0%nat = Some (mlp_row layers' [f32 3; S754_zero false]).
Proof.
  destruct (EdgeConv_self_loop_message 24 128
              (edge_layer_on x_finite loop_a) x_finite no_kwargs
              [0]%nat [0]%nat _ eq_refl eq_refl eq_refl eq_refl)
    as (y & layers' & Hmsg & Hrows).
  { repeat constructor. }
  { repeat constructor. }
  { simpl. repeat split. }
  exists y, layers', (EdgeConv.set_mlp layers' (edge_layer_on x_finite loop_a)).
  split; [exact Hmsg|]. split; [reflexivity|].
  destruct (Hrows 0%nat 0%nat [f32 3] eq_refl eq_refl eq_refl) as [_ Hzero].
  apply Hzero. repeat constructor.
Defined.

(** *** Inputs on which the spec's sentences fail *)

(** The constructor accepts a hop count of zero. *)
Lemma TAGConv_init_accepts_zero_hops :
  (TAGConv.arg_K tag_args_K0 <= 0)%Z /\
  TAGConv.__init__ tag_args_K0 <> Raise ConfigurationError /\
  exists self, TAGConv.__init__ tag_args_K0 = Ok self /\
               TAGConv.K self = 0%Z.
Proof.
  split; [simpl; lia|]. split; [discriminate|].
  exists (unwrap (TAGConv.__init__ tag_args_K0)). split; reflexivity.
Qed.

(** A self-loop on a node with an infinite feature: the difference is NaN,
    not zero, and the message is not the MLP of [x_i || 0]. *)
Lemma EdgeConv_self_loop_infinite_feature :
  exists y s layers',
    indices loop_a = [(0, 0)]%nat /\
    rows x_infinite !! 0%nat = Some [Float.pinf] /\
    EdgeConv.message x_infinite no_kwargs (edge_layer_on x_infinite loop_a)
      = Ok (y, s) /\
    EdgeConv.mlp s = Some layers' /\
    vsub [Float.pinf] [Float.pinf] = [S754_nan] /\
    rows y !! 0%nat = Some [S754_nan] /\
    mlp_row layers' ([Float.pinf] ++ zeros 1) = [Float.pinf] /\
    rows y !! 0%nat <> Some (mlp_row layers' ([Float.pinf] ++ zeros 1)).
Proof.
  pose (r := unwrap (EdgeConv.message x_infinite no_kwargs
                       (edge_layer_on x_infinite loop_a))).
  exists (fst r), (snd r), (default [] (EdgeConv.mlp (snd r))).
  repeat split; try reflexivity. vm_compute. discriminate.
Qed.

(** [call] on a raw adjacency: each hop receives the adjacency as given,
    which is not its normalization. *)
Lemma TAGConv_call_hops_see_raw_adjacency :
  exists y s,
    TAGConv.call inputs2 tag_layer = Ok (y, s) /\
    length (propagate_log (TAGConv.mp s)) = 2%nat /\
    Forall (fun c => pc_a c = a2 /\ pc_a c <> TAGConv.preprocess a2)
           (propagate_log (TAGConv.mp s)).
Proof.
  pose (r := unwrap (TAGConv.call inputs2 tag_layer)).
  exists (fst r), (snd r). split; [reflexivity|]. split; [reflexivity|].
  assert (Hne : a2 <> TAGConv.preprocess a2).
  { intros Heq. apply (f_equal values) in Heq. vm_compute in Heq.
    discriminate. }
  repeat constructor; exact Hne.
Qed.

End Instances.

(** * Instances of the further properties *)

Section MoreInstances.
Import Examples.
#[local] Existing Instance Float.binary32.
#[local] Existing Instance builtin_activations.

Lemma EdgeConv_init_stores_witness :
  EdgeConv.__init__ edge_args_unknown = Raise ValueError /\
  exists self,
    EdgeConv.__init__ edge_args_negative = Ok self /\
    EdgeConv.channels self = (-1)%Z /\
    EdgeConv.build [3; 2]%nat self = Raise ValueError.
Proof.
  split.
  { destruct (EdgeConv_init_stores edge_args_unknown) as (_ & Hname & _).
    eapply (Hname _ "no_such_activation"); reflexivity. }
  destruct (EdgeConv_init_stores edge_args_negative)
    as (_ & _ & _ & Hok & _ & Hlate).
  destruct (Hok (EdgeConv.mp edge_layer_negative) linear_activation
              eq_refl eq_refl)
    as (self & Hinit & _ & Hch & _).
  exists self. split; [exact Hinit|]. split; [exact Hch|].
  apply (Hlate self [3; 2]%nat Hinit); [simpl; lia|].
  apply Exists_cons_tl, Exists_cons_hd. simpl. lia.
Defined.

Lemma EdgeConv_build_errors_witness :
  EdgeConv.build [3]%nat edge_layer_new = Raise AssertionError /\
  exists self', EdgeConv.build [3; 2]%nat edge_layer_new = Ok (tt, self').
Proof.
  split.
  - apply (EdgeConv_build_errors edge_layer_new [3]%nat). simpl. lia.
  - apply (EdgeConv_build_errors edge_layer_new [3; 2]%nat).
    split; [simpl; lia|]. repeat constructor; simpl; lia.
Defined.

Lemma EdgeConv_single_layer_witness :
  exists final,
    EdgeConv.__init__ edge_args_default = Ok edge_layer_default /\
    EdgeConv.mlp
      (snd (unwrap (EdgeConv.build [3; 2]%nat edge_layer_default)))
      = Some [final] /\
    units final = 2%nat /\ d_use_bias final = true.
Proof.
  destruct (EdgeConv_single_layer (builtins := builtin_activations)
              edge_args_default edge_layer_default
              (snd (unwrap (EdgeConv.build [3; 2]%nat edge_layer_default)))
              [3; 2]%nat (or_introl eq_refl) eq_refl eq_refl)
    as (final & Hmlp & Hu & Hb & _).
  exists final. split; [reflexivity|].
  split; [exact Hmlp|]. split; [exact Hu | exact Hb].
Defined.

Lemma EdgeConv_message_width_witness :
  exists y s,
    EdgeConv.message x3 no_kwargs (edge_layer_on x3 a3) = Ok (y, s) /\
    ncols y = 1%nat /\ length (rows y) = 2%nat.
Proof.
  destruct (@EdgeConv_message_width spec_float Float.binary32)
    as (Hbuild & Hbase & Hmsg).
  pose (r := unwrap (EdgeConv.message x3 no_kwargs (edge_layer_on x3 a3))).
  assert (Hbuilt : EdgeConv_built (edge_layer_on x3 a3)).
  { apply (Hbase edge_layer_built
             (set_edges x3 a3 no_kwargs (EdgeConv.mp edge_layer_built))).
    apply (Hbuild edge_layer_new edge_layer_built [1; 1]%nat). reflexivity. }
  destruct (Hmsg (edge_layer_on x3 a3) (snd r) x3 no_kwargs (fst r) Hbuilt
              eq_refl) as (Hn & _ & Hlen & _).
  exists (fst r), (snd r). split; [reflexivity|]. split.
  - change (EdgeConv.channels (edge_layer_on x3 a3)) with 1%Z in Hn. lia.
  - apply (Hlen [1; 2]%nat). reflexivity.
Defined.

Lemma EdgeConv_message_repeat_witness :
  exists y s,
    EdgeConv.message x3 no_kwargs (edge_layer_on x3 a3) = Ok (y, s) /\
    EdgeConv.message x3 no_kwargs s = Ok (y, s).
Proof.
  pose (r := unwrap (EdgeConv.message x3 no_kwargs (edge_layer_on x3 a3))).
  exists (fst r), (snd r). split; [reflexivity|].
  apply (EdgeConv_message_repeat (edge_layer_on x3 a3)). reflexivity.
Defined.

Lemma EdgeConv_message_unbuilt_witness :
  EdgeConv.mlp edge_layer_unbuilt = None /\
  EdgeConv.message x3 no_kwargs edge_layer_unbuilt = Raise AttributeError.
Proof.
  split; [reflexivity|].
  destruct (EdgeConv_message_unbuilt edge_layer_unbuilt x3 no_kwargs eq_refl)
    as [_ Hraise].
  apply (Hraise [1; 2]%nat [0; 1]%nat); [reflexivity | reflexivity |].
  repeat constructor.
Defined.

Lemma EdgeConv_config_round_trip_witness :
  exists self',
    EdgeConv.__init__
      (EdgeConv.mkArgs (EdgeConv.channels edge_layer_built)
         (Some (EdgeConv.mlp_hidden edge_layer_built))
         (IdCallable (EdgeConv.mlp_activation edge_layer_built))
         "sum" None false (EdgeConv.arg_kwargs edge_args) None) = Ok self' /\
    EdgeConv.config self' = EdgeConv.config edge_layer_built.
Proof.
  pose (a := EdgeConv.mkArgs (EdgeConv.channels edge_layer_built)
                (Some (EdgeConv.mlp_hidden edge_layer_built))
                (IdCallable (EdgeConv.mlp_activation edge_layer_built))
                "sum" None false (EdgeConv.arg_kwargs edge_args) None).
  exists (unwrap (EdgeConv.__init__ a)). split; [reflexivity|].
  destruct (EdgeConv_config_round_trip edge_layer_built)
    as (_ & _ & _ & _ & Hround).
  apply (Hround a (unwrap (EdgeConv.__init__ a))); reflexivity.
Defined.

Lemma EdgeConv_mlp_shapes_witness :
  exists y s layers',
    EdgeConv.message x3 no_kwargs (edge_layer_on x3 a3) = Ok (y, s) /\
    EdgeConv.mlp s = Some layers' /\
    length layers' = 2%nat /\
    mlp_accepts layers' 4.
Proof.
  pose (r := unwrap (EdgeConv.message x3 no_kwargs (edge_layer_on x3 a3))).
  destruct (EdgeConv_mlp_shapes (edge_layer_on x3 a3) (snd r) x3 (fst r)
              no_kwargs eq_refl)
    as (layers & layers' & Hmlp & Hmlp' & Hlen & _ & Hacc & _).
  exists (fst r), (snd r), layers'. split; [reflexivity|].
  split; [exact Hmlp'|]. split; [|exact Hacc].
  rewrite Hlen. injection Hmlp as <-. reflexivity.
Defined.

Lemma TAGConv_kernel_shape_witness :
  exists y s w,
    TAGConv.call inputs3 tag_layer = Ok (y, s) /\
    d_weights (TAGConv.linear s) = Some w /\
    in_dim w = 6%nat.
Proof.
  pose (r := unwrap (TAGConv.call inputs3 tag_layer)).
  destruct (TAGConv_kernel_shape tag_layer (snd r) inputs3 (fst r) eq_refl)
    as (_ & w & Hw & Hin & _).
  exists (fst r), (snd r), w. split; [reflexivity|].
  split; [exact Hw | exact Hin].
Defined.

Lemma TAGConv_width_locked_witness :
  exists y s1,
    TAGConv.call inputs3 tag_layer = Ok (y, s1) /\
    TAGConv.call inputs3_narrow s1 = Raise ShapeMismatchError /\
    exists y' s2, TAGConv.call inputs3 s1 = Ok (y', s2).
Proof.
  pose (r := unwrap (TAGConv.call inputs3 tag_layer)).
  exists (fst r), (snd r). split; [reflexivity|]. split.
  - apply (TAGConv_width_locked tag_layer (snd r) inputs3 inputs3_narrow
             (fst r) eq_refl eq_refl eq_refl).
    simpl. lia.
  - apply (TAGConv_width_locked tag_layer (snd r) inputs3 inputs3
             (fst r) eq_refl eq_refl eq_refl).
    reflexivity.
Defined.

Lemma TAGConv_call_repeat_witness :
  exists y s1 s2,
    TAGConv.call inputs3 tag_layer = Ok (y, s1) /\
    TAGConv.call inputs3 s1 = Ok (y, s2).
Proof.
  pose (r := unwrap (TAGConv.call inputs3 tag_layer)).
  destruct (TAGConv_call_repeat tag_layer (snd r) inputs3 (fst r) eq_refl)
    as (s2 & Hs2 & _).
  exists (fst r), (snd r), s2. split; [reflexivity | exact Hs2].
Defined.

Lemma TAGConv_build_rank_only_witness :
  TAGConv.build [3]%nat tag_layer = Raise AssertionError /\
  exists self1,
    TAGConv.build [3; 7]%nat tag_layer = Ok (tt, self1) /\
    d_weights (TAGConv.linear self1) = None.
Proof.
  split.
  - apply (TAGConv_build_rank_only tag_layer [3]%nat). simpl. lia.
  - destruct (TAGConv_build_rank_only tag_layer [3; 7]%nat) as [_ Hok].
    destruct Hok as (self1 & Hb & _ & (_ & _ & _ & Hl) & _); [simpl; lia|].
    exists self1. split; [exact Hb|]. rewrite Hl. reflexivity.
Defined.

Lemma TAGConv_message_needs_weights_witness :
  TAGConv.message x3 (mkKwargs None) (after_hop x3 a3 tag_kwargs3 tag_layer)
  = Raise TypeError.
Proof.
  apply (TAGConv_message_needs_weights
           (after_hop x3 a3 tag_kwargs3 tag_layer) x3 [0; 1]%nat).
  - reflexivity.
  - repeat constructor.
Defined.

Lemma TAGConv_fresh_output_witness :
  exists y s' c s,
    TAGConv.call inputs_cancel tag_layer_K0 = Ok (y, s') /\
    TAGConv.call_concat inputs_cancel tag_layer_K0 = Ok (c, s) /\
    rows y = map (fresh_linear_row tag_args_K0 3) (rows c) /\
    rows y = [[S754_zero false; S754_zero false]].
Proof.
  pose (r := unwrap (TAGConv.call inputs_cancel tag_layer_K0)).
  destruct (TAGConv_fresh_output tag_args_K0 tag_layer_K0 (snd r)
              inputs_cancel (fst r) eq_refl eq_refl)
    as (c & s & Hc & _ & Hrows).
  exists (fst r), (snd r), c, s. split; [reflexivity|].
  split; [exact Hc|]. split; [exact Hrows | reflexivity].
Defined.

Lemma TAGConv_call_errors_witness :
  TAGConv.call (mkInputs x2 a3 None) tag_layer = Raise IndexOutOfRangeError.
Proof.
  apply (TAGConv_call_errors tag_layer (mkInputs x2 a3 None)).
  split; [simpl; lia | reflexivity].
Defined.

End MoreInstances.
